(** * fetcher.py: the news fetcher and its two caches

    A shallow embedding of [src/fetcher/fetcher.py].  The [Fetcher] object,
    the two cache files in the working directory and the log of network
    calls are threaded through a state-and-exception monad; the libraries
    the module calls (feedparser, requests, newspaper, re, utils) are the
    fields of an environment record. *)

From Stdlib Require Import ZArith Lia Ascii.
From stdpp Require Import gmap strings list fin_maps sorting pretty.

Set Warnings "-register-all".
Local Open Scope Z_scope.
Local Open Scope string_scope.
Local Open Scope list_scope.

(** ** Python values

    The values that end up inside the cache dictionaries: [None], booleans,
    integers, strings, lists and tuples ([time.struct_time] is a tuple of
    nine integers).  Dictionaries are [gmap string pyval]. *)

Inductive pyval : Type :=
| PNone
| PBool (b : bool)
| PInt (z : Z)
| PStr (s : string)
| PList (l : list pyval)
| PTuple (l : list pyval).

Abbreviation pydict := (gmap string pyval).

(** Python's [==] on these values: a bool equals the integer it denotes,
    sequences are compared element by element, a list never equals a
    tuple. *)
Definition seq_eq (eq : pyval → pyval → bool) : list pyval → list pyval → bool :=
  fix go (xs ys : list pyval) {struct xs} : bool :=
    match xs, ys with
    | [], [] => true
    | x :: xs', y :: ys' => eq x y && go xs' ys'
    | _, _ => false
    end.

Fixpoint py_eq (a b : pyval) {struct a} : bool :=
  match a, b with
  | PNone, PNone => true
  | PBool x, PBool y => Bool.eqb x y
  | PBool x, PInt y => Z.eqb (Z.b2z x) y
  | PInt x, PBool y => Z.eqb x (Z.b2z y)
  | PInt x, PInt y => Z.eqb x y
  | PStr x, PStr y => String.eqb x y
  | PList x, PList y => seq_eq py_eq x y
  | PTuple x, PTuple y => seq_eq py_eq x y
  | _, _ => false
  end.

(** Truth value of an object, as tested by [if] and [not]. *)
Definition truthy (v : pyval) : bool :=
  match v with
  | PNone => false
  | PBool b => b
  | PInt z => negb (Z.eqb z 0)
  | PStr s => negb (String.eqb s "")
  | PList l | PTuple l => match l with [] => false | _ => true end
  end.

(** ** JSON documents

    What [json.dumps] writes for a cache value and what [json.loads] makes
    of it.  JSON has a single array type: lists and tuples are both written
    as arrays, and an array is read back as a list. *)

Inductive json : Type :=
| JNull
| JBool (b : bool)
| JNum (z : Z)
| JStr (s : string)
| JArr (l : list json).

Abbreviation jsondict := (gmap string json).

Fixpoint json_dumps_value (v : pyval) : json :=
  match v with
  | PNone => JNull
  | PBool b => JBool b
  | PInt z => JNum z
  | PStr s => JStr s
  | PList l => JArr (map json_dumps_value l)
  | PTuple l => JArr (map json_dumps_value l)
  end.

Fixpoint json_loads_value (j : json) : pyval :=
  match j with
  | JNull => PNone
  | JBool b => PBool b
  | JNum z => PInt z
  | JStr s => PStr s
  | JArr l => PList (map json_loads_value l)
  end.

(** Values that contain no tuple, hence are their own JSON image. *)
Fixpoint tuple_free (v : pyval) : bool :=
  match v with
  | PList l => forallb tuple_free l
  | PTuple _ => false
  | _ => true
  end.

(** ** Exceptions and results *)

Inductive exn : Type :=
| KeyError (key : string)
| IndexError
| TypeError
| AttributeError (attr : string)
| ParseFailure.

Inductive outcome (A : Type) : Type :=
| Return (a : A)
| Raise (e : exn).
Arguments Return {A} a.
Arguments Raise {A} e.

(** ** Feeds and feed entries *)

Record Feed : Type := mkFeed { name : string; url : string }.

Definition feeds : list Feed :=
  [ mkFeed "CNA" "https://www.channelnewsasia.com/rssfeeds/8395986";
    mkFeed "BBC" "http://feeds.bbci.co.uk/news/rss.xml";
    mkFeed "StraitsTimes" "https://www.straitstimes.com/news/world/rss.xml" ].

(** [entry.published_parsed]: the attribute may be missing, may be [None],
    or is a time struct (a tuple of integers). *)
Inductive published : Type :=
| NoPublished
| PublishedNone
| Published (t : list Z).

(** A raw feed entry, an object whose attributes depend on what the feed
    item holds.  [links] and [title] may be missing ([None]); a link may
    itself lack its [href]; [summary] is there or not. *)
Record entry : Type := mkEntry {
  links : option (list (option string));
  title : option string;
  published_parsed : published;
  summary : option string
}.

(** The argument [srcs]: [None], a single [Feed], or a list of feeds. *)
Inductive srcs_arg : Type :=
| SrcsNone
| SrcsOne (f : Feed)
| SrcsList (l : list Feed).

(** ** The world outside the module *)

Inductive netcall : Type :=
| ParseCall (u : string)
| GetCall (u : string).

(** Outcome of [requests.get]: a response with [.text] and [.status_code],
    or a [RequestException] with its message. *)
Inductive get_result : Type :=
| Response (text : string) (status_code : Z)
| RequestException (msg : string).

(** The collaborators.  The two network functions see the calls made so
    far, so a feed or a page may change from one call to the next. *)
Record Env : Type := mkEnv {
  (** [feedparser.parse(url).entries]; [None] when the call raises. *)
  feedparser_parse : list netcall → string → option (list entry);
  requests_get : list netcall → string → get_result;
  (** [newspaper.fulltext(html)]; [None] when it raises. *)
  newspaper_fulltext : string → option string;
  (** Modelled from the spec: [utils.clean_html] (module [utils/utils.py]
      is not among the sources), the utility that strips the HTML of a feed
      summary and returns plain text. *)
  clean_html : string → string;
  (** [re.sub(pattern, repl, text, flags=re.MULTILINE)]. *)
  re_sub : string → string → string → string;
  (** [repr] of a value, and the iteration order of [set(urls)]. *)
  py_repr : pyval → string;
  set_iter : list string → list string
}.

(** The [Fetcher] instance, the two cache files (absent, or a JSON object
    of the shape the module writes) and the network log. *)
Record state : Type := mkState {
  use_storage_for_cache : bool;
  cached_simple_fetch : gmap string (list pydict);
  cached_articles_info : gmap string pydict;
  simple_fetch_json : option (gmap string (list jsondict));
  articles_info_json : option (gmap string jsondict);
  net_log : list netcall
}.

Definition set_cached_simple_fetch (c : gmap string (list pydict)) (s : state) : state :=
  mkState (use_storage_for_cache s) c (cached_articles_info s)
          (simple_fetch_json s) (articles_info_json s) (net_log s).

Definition set_cached_articles_info (c : gmap string pydict) (s : state) : state :=
  mkState (use_storage_for_cache s) (cached_simple_fetch s) c
          (simple_fetch_json s) (articles_info_json s) (net_log s).

Definition set_simple_fetch_json (f : option (gmap string (list jsondict))) (s : state) : state :=
  mkState (use_storage_for_cache s) (cached_simple_fetch s) (cached_articles_info s)
          f (articles_info_json s) (net_log s).

Definition set_articles_info_json (f : option (gmap string jsondict)) (s : state) : state :=
  mkState (use_storage_for_cache s) (cached_simple_fetch s) (cached_articles_info s)
          (simple_fetch_json s) f (net_log s).

Definition log_call (c : netcall) (s : state) : state :=
  mkState (use_storage_for_cache s) (cached_simple_fetch s) (cached_articles_info s)
          (simple_fetch_json s) (articles_info_json s) (net_log s ++ [c]).

(** ** The monad *)

Definition M (A : Type) : Type := state → outcome A * state.

#[global] Instance M_ret : MRet M := λ A a s, (Return a, s).
#[global] Instance M_bind : MBind M := λ A B f m s,
  match m s with
  | (Return a, s') => f a s'
  | (Raise e, s') => (Raise e, s')
  end.

Definition raise {A} (e : exn) : M A := λ s, (Raise e, s).
Definition get_state : M state := λ s, (Return s, s).
Definition modify (f : state → state) : M unit := λ s, (Return tt, f s).
Definition lift {A} (o : outcome A) : M A := λ s, (o, s).
(** [try: m except: ...]: the outcome of [m] as a value. *)
Definition try {A} (m : M A) : M (outcome A) := λ s,
  let '(o, s') := m s in (Return o, s').
Definition when (b : bool) (m : M unit) : M unit := if b then m else mret tt.

Definition result {A} (m : M A) (s : state) : outcome A := (m s).1.
Definition exec {A} (m : M A) (s : state) : state := (m s).2.

(** ** Strings *)

Definition nl : string := String (Ascii.ascii_of_nat 10) "".

(** [s.split(sep)] for a one-character separator. *)
Fixpoint split (sep : Ascii.ascii) (s : string) : list string :=
  match s with
  | EmptyString => [EmptyString]
  | String c s' =>
      if Ascii.eqb c sep then EmptyString :: split sep s'
      else match split sep s' with
           | [] => [String c EmptyString]
           | w :: ws => String c w :: ws
           end
  end.

(** [c in s] *)
Fixpoint has_char (c : Ascii.ascii) (s : string) : bool :=
  match s with
  | EmptyString => false
  | String c' s' => Ascii.eqb c' c || has_char c s'
  end.

(** [s.replace(old, new)] for a non-empty [old]: matches are replaced from
    left to right without overlap; [skip] counts the characters of the
    current match still to be dropped. *)
Fixpoint replace_go (old new : string) (skip : nat) (s : string) : string :=
  match s with
  | EmptyString => EmptyString
  | String c s' =>
      match skip with
      | S k => replace_go old new k s'
      | O => if String.prefix old s
             then new +:+ replace_go old new (Nat.pred (String.length old)) s'
             else String c (replace_go old new O s')
      end
  end.
Definition replace (old new s : string) : string := replace_go old new O s.

(** [str(v)]: the elements of a list or a tuple are shown by [repr]. *)
Definition py_str (E : Env) (v : pyval) : string :=
  match v with
  | PNone => "None"
  | PBool true => "True"
  | PBool false => "False"
  | PInt z => pretty z
  | PStr s => s
  | PList l => "[" +:+ String.concat ", " (map (py_repr E) l) +:+ "]"
  | PTuple [x] => "(" +:+ py_repr E x +:+ ",)"
  | PTuple l => "(" +:+ String.concat ", " (map (py_repr E) l) +:+ ")"
  end.

(** [str(set(urls))]. *)
Definition str_set (E : Env) (urls : list string) : string :=
  "{" +:+ String.concat ", " (map (λ u, py_repr E (PStr u)) (set_iter E urls)) +:+ "}".

#[global] Instance outcome_ret : MRet outcome := λ A a, Return a.
#[global] Instance outcome_bind : MBind outcome := λ A B f o,
  match o with
  | Return a => f a
  | Raise e => Raise e
  end.

(** [l[i]] *)
Definition index {A} (l : list A) (i : nat) : outcome A :=
  match l !! i with
  | Some x => Return x
  | None => Raise IndexError
  end.

(** [x.name] for an attribute that may be missing. *)
Definition getattr {A} (name : string) (a : option A) : outcome A :=
  match a with
  | Some v => Return v
  | None => Raise (AttributeError name)
  end.

(** [d[k]] *)
Definition getitem (d : pydict) (k : string) : outcome pyval :=
  match d !! k with
  | Some v => Return v
  | None => Raise (KeyError k)
  end.

(** [list(map(f, l))] for an [f] that may raise. *)
Fixpoint map_outcome {A B} (f : A → outcome B) (l : list A) : outcome (list B) :=
  match l with
  | [] => Return []
  | x :: l' => y ← f x; ys ← map_outcome f l'; Return (y :: ys)
  end.

(** ** Sorting by publication time

    Tuples of integers compare lexicographically.  [list.sort] is stable;
    with [reverse=True] the elements are ordered as if every comparison
    were reversed, so the most recent entry comes first and entries with
    equal keys keep their order. *)

Fixpoint tuple_ltb (a b : list Z) : bool :=
  match a, b with
  | _, [] => false
  | [], _ :: _ => true
  | x :: a', y :: b' =>
      if (x <? y)%Z then true
      else if (y <? x)%Z then false
      else tuple_ltb a' b'
  end.

Definition key_ltb (a b : published) : bool :=
  match a, b with
  | Published x, Published y => tuple_ltb x y
  | _, _ => false
  end.

Fixpoint sort_insert (x : entry) (l : list entry) : list entry :=
  match l with
  | [] => [x]
  | y :: l' =>
      if key_ltb (published_parsed x) (published_parsed y)
      then y :: sort_insert x l'
      else x :: l
  end.

Definition sort_reverse (l : list entry) : list entry := foldr sort_insert [] l.

Definition lacks_attribute (x : entry) : bool :=
  match published_parsed x with NoPublished => true | _ => false end.
Definition has_none_key (x : entry) : bool :=
  match published_parsed x with PublishedNone => true | _ => false end.

(** [res.sort(key=lambda x: x.published_parsed, reverse=True)]: the keys
    are computed first (an entry without the attribute raises); with two
    or more elements every key takes part in a comparison, and comparing
    [None] raises [TypeError]. *)
Definition list_sort (res : list entry) : outcome (list entry) :=
  if existsb lacks_attribute res then Raise (AttributeError "published_parsed")
  else if (1 <? length res)%nat && existsb has_none_key res then Raise TypeError
  else Return (sort_reverse res).

(** ** The methods of [Fetcher] *)

Section Fetcher.
Variable E : Env.

Definition feedparser_parse_call (u : string) : M (list entry) := λ s,
  match feedparser_parse E (net_log s) u with
  | Some entries => (Return entries, log_call (ParseCall u) s)
  | None => (Raise ParseFailure, log_call (ParseCall u) s)
  end.

Definition requests_get_call (u : string) : M get_result := λ s,
  (Return (requests_get E (net_log s) u), log_call (GetCall u) s).

(** The loop of [fetch]: a source whose parse raises is skipped. *)
Fixpoint fetch_loop (srcs : list Feed) (res : list entry) : M (list entry) :=
  match srcs with
  | [] => mret res
  | src :: rest =>
      r ← try (feedparser_parse_call (url src));
      match r with
      | Raise _ => fetch_loop rest res
      | Return entries => fetch_loop rest (res ++ entries)
      end
  end.

(** The first lines of [fetch]: the default list, and a single [Feed]
    wrapped into a list. *)
Definition sources (srcs : srcs_arg) : list Feed :=
  match srcs with
  | SrcsNone => feeds
  | SrcsOne f => [f]
  | SrcsList l => l
  end.

Definition fetch (srcs : srcs_arg) : M (list entry) :=
  let srcs := sources srcs in
  res ← fetch_loop srcs [];
  lift (list_sort res).

Definition url_key (x : string) : string := "URL<" +:+ x +:+ ">".

(** [CACHE_KEY] of [simple_fetch]: [not srcs] holds for [None] and for the
    empty list; a single [Feed] is not iterable. *)
Definition simple_fetch_key (srcs : srcs_arg) : outcome string :=
  match srcs with
  | SrcsNone => Return (url_key (py_str E PNone))
  | SrcsList [] => Return (url_key (py_str E PNone))
  | SrcsList l => Return (url_key (str_set E (map url l)))
  | SrcsOne _ => Raise TypeError
  end.

Definition published_value (p : published) : outcome pyval :=
  match p with
  | NoPublished => Raise (AttributeError "published_parsed")
  | PublishedNone => Return PNone
  | Published t => Return (PTuple (map PInt t))
  end.

(** The dictionary built for one entry by the lambda of [simple_fetch]. *)
Definition simplify (x : entry) : outcome pydict :=
  entry_links ← getattr "links" (links x);
  link ← index entry_links 0;
  href ← getattr "href" link;
  entry_title ← getattr "title" (title x);
  published_on ← published_value (published_parsed x);
  let short_summary := match summary x with
                       | None => PNone
                       | Some t => PStr (clean_html E t)
                       end in
  Return (<["short_summary" := short_summary]>
          (<["published_on" := published_on]>
           (<["title" := PStr entry_title]>
            (<["url" := PStr href]> ∅)))).

Definition json_dumps_dict (d : pydict) : jsondict := json_dumps_value <$> d.
Definition json_loads_dict (d : jsondict) : pydict := json_loads_value <$> d.

(** [json.dumps] and [json.loads] of the two cache dictionaries. *)
Definition json_dumps_simple (c : gmap string (list pydict))
  : gmap string (list jsondict) := map json_dumps_dict <$> c.
Definition json_loads_simple (doc : gmap string (list jsondict))
  : gmap string (list pydict) := map json_loads_dict <$> doc.
Definition json_dumps_info (c : gmap string pydict)
  : gmap string jsondict := json_dumps_dict <$> c.
Definition json_loads_info (doc : gmap string jsondict)
  : gmap string pydict := json_loads_dict <$> doc.

Definition saveCacheToStorage : M unit :=
  s ← get_state;
  modify (set_simple_fetch_json
            (Some (json_dumps_simple (cached_simple_fetch s))));;
  modify (set_articles_info_json
            (Some (json_dumps_info (cached_articles_info s)))).

Definition readCacheFromStorage : M unit :=
  s ← get_state;
  match simple_fetch_json s with
  | Some doc => modify (set_cached_simple_fetch (json_loads_simple doc))
  | None => mret tt
  end;;
  match articles_info_json s with
  | Some doc => modify (set_cached_articles_info (json_loads_info doc))
  | None => mret tt
  end.

(** [Fetcher(use_storage_for_cache)]: a new instance over the same files. *)
Definition Fetcher_init (use_storage : bool) : M unit :=
  modify (λ s, mkState use_storage ∅ ∅
                 (simple_fetch_json s) (articles_info_json s) (net_log s));;
  when use_storage readCacheFromStorage.

Definition simple_fetch (srcs : srcs_arg) (cached : bool) : M (list pydict) :=
  CACHE_KEY ← lift (simple_fetch_key srcs);
  s ← get_state;
  match (if cached then cached_simple_fetch s !! CACHE_KEY else None) with
  | Some final_data => mret final_data
  | None =>
      data ← fetch srcs;
      final_data ← lift (map_outcome simplify data);
      when (cached && bool_decide (final_data ≠ []))
        (s ← get_state;
         modify (set_cached_simple_fetch
                   (<[CACHE_KEY := final_data]> (cached_simple_fetch s)));;
         when (use_storage_for_cache s) saveCacheToStorage);;
      mret final_data
  end.

Definition get_url_domain (u : string) : outcome (option string) :=
  let comp := split "/"%char u in
  let body : outcome (option string) :=
    c1 ← index comp 1;
    if String.eqb c1 "" then
      c0 ← index comp 0;
      if String.eqb c0 "http" || String.eqb c0 "https"
      then d ← index (split "/"%char u) 2; Return (Some d)
      else Return None
    else Return None in
  match body with
  | Raise IndexError => Return None
  | o => o
  end.

(** The clean-up of the extracted text, lines 149 to 155. *)
Definition article_cleanup (plain_text : string) : string :=
  let plain_text := replace (nl +:+ "Advertisement" +:+ nl) "" plain_text in
  let plain_text := re_sub E "^Download our app or subscribe.*$" "" plain_text in
  let plain_text := re_sub E "^(Image copyright )(.*)( Image caption)[ ]?" "" plain_text in
  let plain_text := re_sub E "^(Image copyright )(.*)$" "" plain_text in
  re_sub E "^Follow [@]?\w+ on (Instagram|Twitter|Facebook|YouTube|and|[ ,.])+$" "" plain_text.

Definition retrieve_article_info (u : string) (cached : bool) : M pydict :=
  let CACHE_KEY := url_key u in
  s ← get_state;
  match (if cached then cached_articles_info s !! CACHE_KEY else None) with
  | Some result =>
      plain_text ← lift (getitem result "plain_text");
      (* [result] is the dictionary held by the cache: the assignment
         writes into the cache *)
      let result := <["plain_text" := plain_text]> result in
      modify (set_cached_articles_info
                (<[CACHE_KEY := result]> (cached_articles_info s)));;
      mret result
  | None =>
      response ← requests_get_call u;
      match response with
      | RequestException e =>
          mret (<["success" := PBool false]> (<["text" := PStr e]> ∅))
      | Response text status_code =>
          let result : pydict :=
            <["status_code" := PInt status_code]> (<["text" := PStr text]> ∅) in
          if (200 <=? status_code)%Z && (status_code <? 300)%Z then
            let result := <["success" := PBool true]> result in
            let result :=
              match newspaper_fulltext E text with
              | Some plain_text =>
                  <["plain_text" := PStr (article_cleanup plain_text)]> result
              | None => <["success" := PBool false]> result
              end in
            success ← lift (getitem result "success");
            when (cached && truthy success)
              (s ← get_state;
               modify (set_cached_articles_info
                         (<[CACHE_KEY := result]> (cached_articles_info s)));;
               when (use_storage_for_cache s) saveCacheToStorage);;
            mret result
          else
            mret (<["success" := PBool false]> result)
      end
  end.

Definition retrieve_article_contents (u : string) : M pyval :=
  data ← retrieve_article_info u true;
  success ← lift (getitem data "success");
  if negb (truthy success) then
    status_code ← lift (getitem data "status_code");
    mret (PStr ("Error " +:+ py_str E status_code))
  else
    lift (getitem data "plain_text").

End Fetcher.

(** ** Operations as data, and the cache invariant *)

Inductive call : Type :=
| CallInit (use_storage : bool)
| CallFetch (srcs : srcs_arg)
| CallSimpleFetch (srcs : srcs_arg) (cached : bool)
| CallGetUrlDomain (u : string)
| CallRetrieveArticleInfo (u : string) (cached : bool)
| CallRetrieveArticleContents (u : string)
| CallSaveCacheToStorage
| CallReadCacheFromStorage.

(** The state a call leaves behind, whether it returns or raises. *)
Definition run_call (E : Env) (c : call) (s : state) : state :=
  match c with
  | CallInit b => exec (Fetcher_init b) s
  | CallFetch srcs => exec (fetch E srcs) s
  | CallSimpleFetch srcs cached => exec (simple_fetch E srcs cached) s
  | CallGetUrlDomain u => s
  | CallRetrieveArticleInfo u cached => exec (retrieve_article_info E u cached) s
  | CallRetrieveArticleContents u => exec (retrieve_article_contents E u) s
  | CallSaveCacheToStorage => exec saveCacheToStorage s
  | CallReadCacheFromStorage => exec readCacheFromStorage s
  end.

(** A successful article record: [success] is [True] and [plain_text] is
    there. *)
Definition info_ok (r : pydict) : Prop :=
  r !! "success" = Some (PBool true) ∧ is_Some (r !! "plain_text").
Definition info_doc_ok (r : jsondict) : Prop :=
  r !! "success" = Some (JBool true) ∧ is_Some (r !! "plain_text").

Definition cache_inv (s : state) : Prop :=
  map_Forall (λ _ (v : list pydict), v ≠ []) (cached_simple_fetch s) ∧
  map_Forall (λ _ r, info_ok r) (cached_articles_info s).

Definition storage_inv (s : state) : Prop :=
  (∀ doc, simple_fetch_json s = Some doc →
          map_Forall (λ _ (v : list jsondict), v ≠ []) doc) ∧
  (∀ doc, articles_info_json s = Some doc →
          map_Forall (λ _ r, info_doc_ok r) doc).

Definition inv (s : state) : Prop := cache_inv s ∧ storage_inv s.

(** A process that starts in a directory without cache files. *)
Definition boot (use_storage : bool) : state :=
  mkState use_storage ∅ ∅ None None [].

(** ** What [fetch] is meant to return

    The entries of the sources whose parse succeeds, in source order; each
    parse sees the calls made before it. *)
Fixpoint parsed_entries (E : Env) (log : list netcall) (srcs : list Feed) : list entry :=
  match srcs with
  | [] => []
  | src :: rest =>
      match feedparser_parse E log (url src) with
      | Some entries => entries
      | None => []
      end ++ parsed_entries E (log ++ [ParseCall (url src)]) rest
  end.

Definition has_time (x : entry) : bool :=
  match published_parsed x with Published _ => true | _ => false end.

(** [x] may stand before [y] in a list sorted most recent first: [x] is
    not older than [y]. *)
Definition not_older (x y : entry) : Prop :=
  key_ltb (published_parsed x) (published_parsed y) = false.

(** ** A small world to run the methods in *)

Module Demo.

Definition bbc : Feed := mkFeed "BBC" "http://feeds.bbci.co.uk/news/rss.xml".
Definition cna : Feed := mkFeed "CNA" "https://www.channelnewsasia.com/rssfeeds/8395986".
Definition st : Feed := mkFeed "StraitsTimes" "https://www.straitstimes.com/news/world/rss.xml".

Definition e1 : entry :=
  mkEntry (Some [Some "https://www.bbc.co.uk/news/1"]) (Some "First")
          (Published [2020; 5; 17; 10; 0; 0; 6; 138; 0]) (Some "<p>one</p>").
Definition e2 : entry :=
  mkEntry (Some [Some "https://www.bbc.co.uk/news/2"]) (Some "Second")
          (Published [2020; 5; 18; 9; 30; 0; 0; 139; 0]) None.
Definition e3 : entry :=
  mkEntry (Some [Some "https://www.straitstimes.com/3"]) (Some "Third")
          (Published [2020; 5; 17; 23; 59; 0; 6; 138; 0]) (Some "three").

(** The BBC feed has two entries, the Straits Times feed one, and parsing
    the CNA feed raises.  One page is served, one is missing, and the
    third host cannot be reached. *)
Definition env : Env := {|
  feedparser_parse := λ _ u,
    if String.eqb u (url bbc) then Some [e1; e2]
    else if String.eqb u (url st) then Some [e3]
    else None;
  requests_get := λ _ u,
    if String.eqb u "https://example.com/ok" then Response "<html>Hello</html>" 200
    else if String.eqb u "https://example.com/missing" then Response "Not Found" 404
    else RequestException "Connection refused";
  newspaper_fulltext := λ html,
    if String.eqb html "<html>Hello</html>" then Some "Hello" else None;
  clean_html := λ t, t;
  re_sub := λ _ _ t, t;
  py_repr := λ v, match v with PStr t => "'" +:+ t +:+ "'" | _ => "?" end;
  set_iter := λ l, l
|}.

(** An instance whose simple-fetch cache holds one summary with its time
    struct. *)
Definition summary1 : pydict :=
  <["short_summary" := PNone]>
  (<["published_on" := PTuple (map PInt [2020; 5; 18; 9; 30; 0; 0; 139; 0])]>
   (<["title" := PStr "Second"]>
    (<["url" := PStr "https://www.bbc.co.uk/news/2"]> ∅))).

Definition with_summary : state :=
  mkState true {[ "URL<None>" := [summary1] ]} ∅ None None [].

End Demo.

(** ** States used to describe the effects of the methods *)

Definition log_calls (cs : list netcall) (s : state) : state :=
  mkState (use_storage_for_cache s) (cached_simple_fetch s) (cached_articles_info s)
          (simple_fetch_json s) (articles_info_json s) (net_log s ++ cs).

(** Both files rewritten from the two dictionaries. *)
Definition save_files (s : state) : state :=
  set_articles_info_json (Some (json_dumps_info (cached_articles_info s)))
    (set_simple_fetch_json (Some (json_dumps_simple (cached_simple_fetch s))) s).

(** An insertion into a cache, flushed to the files when storage is on. *)
Definition store_simple (k : string) (v : list pydict) (s : state) : state :=
  let s' := set_cached_simple_fetch (<[k := v]> (cached_simple_fetch s)) s in
  if use_storage_for_cache s then save_files s' else s'.

Definition store_info (k : string) (r : pydict) (s : state) : state :=
  let s' := set_cached_articles_info (<[k := r]> (cached_articles_info s)) s in
  if use_storage_for_cache s then save_files s' else s'.

(** The calls [fetch] makes: one parse per source, in order. *)
Definition parse_calls (srcs : list Feed) : list netcall :=
  map (λ src, ParseCall (url src)) srcs.

(** Two states that differ at most in the network log. *)
Definition same_store (s s' : state) : Prop :=
  use_storage_for_cache s' = use_storage_for_cache s ∧
  cached_simple_fetch s' = cached_simple_fetch s ∧
  cached_articles_info s' = cached_articles_info s ∧
  simple_fetch_json s' = simple_fetch_json s ∧
  articles_info_json s' = articles_info_json s.

(** The call goes to the network: caching is off, or the key is new. *)
Definition misses (u : string) (cached : bool) (s : state) : Prop :=
  cached = false ∨ cached_articles_info s !! url_key u = None.

Definition simple_misses (k : string) (cached : bool) (s : state) : Prop :=
  cached = false ∨ cached_simple_fetch s !! k = None.

(** What [json.loads(json.dumps(v))] is: [v] with its tuples turned into
    lists. *)
Fixpoint listify (v : pyval) : pyval :=
  match v with
  | PList l => PList (map listify l)
  | PTuple l => PList (map listify l)
  | _ => v
  end.

Definition listify_dict (d : pydict) : pydict := listify <$> d.

Definition dict_tuple_free (d : pydict) : Prop :=
  map_Forall (λ _ x, tuple_free x = true) d.

(** The four keys of a simplified summary, and the summary of an entry. *)
Definition summary_keys : gset string :=
  {[ "url"; "title"; "published_on"; "short_summary" ]}.

(** The first link of the entry, when it is there and has its [href]. *)
Definition first_href (x : entry) : option string :=
  entry_links ← links x; link ← head entry_links; link.

(** The entry has what the lambda of [simple_fetch] reads without a
    guard: a first link with its [href], and a title. *)
Definition has_link_and_title (x : entry) : bool :=
  match first_href x, title x with
  | Some _, Some _ => true
  | _, _ => false
  end.

Definition item_of (E : Env) (x : entry) (d : pydict) : Prop :=
  dom d = summary_keys ∧
  d !! "url" = PStr <$> first_href x ∧
  d !! "title" = PStr <$> title x ∧
  is_Some (title x) ∧
  (d !! "short_summary" = Some PNone ↔ summary x = None) ∧
  (∀ t, summary x = Some t → d !! "short_summary" = Some (PStr (clean_html E t))).

(** Feeds that do not change while the process runs. *)
Definition stationary_feeds (E : Env) : Prop :=
  ∀ log log' u, feedparser_parse E log u = feedparser_parse E log' u.

(** The states a process can be in: it starts without cache files and
    calls the methods in any order. *)
Inductive reachable (E : Env) : state → Prop :=
| reachable_boot b : reachable E (boot b)
| reachable_call s c : reachable E s → reachable E (run_call E c s).

(** ** Further predicates on states *)

(** Each cache file, when it exists, is the JSON image of the dictionary
    in memory; a dictionary without a file is empty. *)
Definition files_in_sync (s : state) : Prop :=
  match simple_fetch_json s with
  | Some doc => doc = json_dumps_simple (cached_simple_fetch s)
  | None => cached_simple_fetch s = ∅
  end ∧
  match articles_info_json s with
  | Some doc => doc = json_dumps_info (cached_articles_info s)
  | None => cached_articles_info s = ∅
  end.

(** Every summary, in memory and in the file, has the four keys. *)
Definition summaries_inv (s : state) : Prop :=
  map_Forall (λ _ (v : list pydict), Forall (λ d, dom d = summary_keys) v)
             (cached_simple_fetch s) ∧
  (∀ doc, simple_fetch_json s = Some doc →
          map_Forall (λ _ (v : list jsondict),
                        Forall (λ d, dom d = summary_keys) v) doc).

(** The entries whose publication time is [t]. *)
Definition published_at (t : list Z) (x : entry) : bool :=
  match published_parsed x with
  | Published t' => bool_decide (t' = t)
  | _ => false
  end.

(** The states of a process whose instances all use the cache files. *)
Inductive reachable_with_storage (E : Env) : state → Prop :=
| reachable_storage_boot : reachable_with_storage E (boot true)
| reachable_storage_call s c :
    reachable_with_storage E s →
    c ≠ CallInit false →
    reachable_with_storage E (run_call E c s).

(** * Properties *)

Ltac unfold_monad :=
  unfold mbind, M_bind, mret, M_ret, outcome_bind, outcome_ret,
    get_state, modify, lift, raise, when, try, result, exec in *.

(** ** The state after saving, loading and logging *)

Lemma saveCacheToStorage_spec s :
  saveCacheToStorage s = (Return tt, save_files s).
Proof. reflexivity. Qed.

Lemma log_call_log_calls c s : log_call c s = log_calls [c] s.
Proof. reflexivity. Qed.

Lemma log_calls_nil s : log_calls [] s = s.
Proof. destruct s; unfold log_calls; cbn. by rewrite app_nil_r. Qed.

Lemma log_calls_app cs cs' s : log_calls cs' (log_calls cs s) = log_calls (cs ++ cs') s.
Proof. unfold log_calls; cbn. by rewrite <- app_assoc. Qed.

Lemma same_store_refl s : same_store s s.
Proof. by repeat split. Qed.

Lemma same_store_log_calls cs s : same_store s (log_calls cs s).
Proof. by repeat split. Qed.

(** ** Dictionary access *)

Lemma getitem_insert_eq (d : pydict) k v : getitem (<[k := v]> d) k = Return v.
Proof. unfold getitem. by rewrite lookup_insert_eq. Qed.

Lemma getitem_insert_ne (d : pydict) k k' v :
  k ≠ k' → getitem (<[k := v]> d) k' = getitem d k'.
Proof. intros. unfold getitem. by rewrite lookup_insert_ne. Qed.

Lemma getitem_Some (d : pydict) k v : d !! k = Some v → getitem d k = Return v.
Proof. intros H. unfold getitem. by rewrite H. Qed.

Lemma getitem_None (d : pydict) k : d !! k = None → getitem d k = Raise (KeyError k).
Proof. intros H. unfold getitem. by rewrite H. Qed.

(** ** [retrieve_article_info], path by path *)

Section Retrieve.
Variable E : Env.

Lemma misses_lookup u cached s :
  misses u cached s →
  (if cached then cached_articles_info s !! url_key u else None) = None.
Proof. intros [-> | ->]; [done | by destruct cached]. Qed.

Lemma retrieve_article_info_hit u s r :
  cached_articles_info s !! url_key u = Some r →
  is_Some (r !! "plain_text") →
  retrieve_article_info E u true s = (Return r, s).
Proof.
  intros Hr [p Hp]. unfold retrieve_article_info. unfold_monad. cbn.
  rewrite Hr. unfold getitem. rewrite Hp. cbn.
  rewrite (insert_id r _ _ Hp). rewrite (insert_id _ _ _ Hr).
  by destruct s.
Qed.

Lemma retrieve_article_info_hit_no_plain_text u s r :
  cached_articles_info s !! url_key u = Some r →
  r !! "plain_text" = None →
  retrieve_article_info E u true s = (Raise (KeyError "plain_text"), s).
Proof.
  intros Hr Hp. unfold retrieve_article_info. unfold_monad. cbn.
  rewrite Hr. unfold getitem. by rewrite Hp.
Qed.

Lemma retrieve_article_info_transport u cached s msg :
  misses u cached s →
  requests_get E (net_log s) u = RequestException msg →
  retrieve_article_info E u cached s
  = (Return (<["success" := PBool false]> (<["text" := PStr msg]> ∅)),
     log_call (GetCall u) s).
Proof.
  intros Hm Hg. unfold retrieve_article_info, requests_get_call. unfold_monad. cbn.
  rewrite (misses_lookup _ _ _ Hm). by rewrite Hg.
Qed.

Lemma retrieve_article_info_status u cached s text code :
  misses u cached s →
  requests_get E (net_log s) u = Response text code →
  ¬ (200 ≤ code < 300)%Z →
  retrieve_article_info E u cached s
  = (Return (<["success" := PBool false]>
             (<["status_code" := PInt code]> (<["text" := PStr text]> ∅))),
     log_call (GetCall u) s).
Proof.
  intros Hm Hg Hc. unfold retrieve_article_info, requests_get_call. unfold_monad. cbn.
  rewrite (misses_lookup _ _ _ Hm), Hg.
  destruct (200 <=? code)%Z eqn:H1; destruct (code <? 300)%Z eqn:H2; cbn; try done.
  lia.
Qed.

Lemma retrieve_article_info_extraction_fails u cached s text code :
  misses u cached s →
  requests_get E (net_log s) u = Response text code →
  (200 ≤ code < 300)%Z →
  newspaper_fulltext E text = None →
  retrieve_article_info E u cached s
  = (Return (<["success" := PBool false]>
             (<["success" := PBool true]>
              (<["status_code" := PInt code]> (<["text" := PStr text]> ∅)))),
     log_call (GetCall u) s).
Proof.
  intros Hm Hg Hc Hx. unfold retrieve_article_info, requests_get_call. unfold_monad. cbn.
  rewrite (misses_lookup _ _ _ Hm), Hg.
  assert ((200 <=? code)%Z && (code <? 300)%Z = true) as -> by lia.
  rewrite Hx. cbn. rewrite getitem_insert_eq. cbn. by rewrite andb_false_r.
Qed.

Lemma retrieve_article_info_extracted u cached s text code p :
  misses u cached s →
  requests_get E (net_log s) u = Response text code →
  (200 ≤ code < 300)%Z →
  newspaper_fulltext E text = Some p →
  let r : pydict :=
    <["plain_text" := PStr (article_cleanup E p)]>
    (<["success" := PBool true]>
     (<["status_code" := PInt code]> (<["text" := PStr text]> ∅))) in
  retrieve_article_info E u cached s
  = (Return r,
     if cached then store_info (url_key u) r (log_call (GetCall u) s)
     else log_call (GetCall u) s).
Proof.
  intros Hm Hg Hc Hx r. unfold retrieve_article_info, requests_get_call. unfold_monad. cbn.
  rewrite (misses_lookup _ _ _ Hm), Hg.
  assert ((200 <=? code)%Z && (code <? 300)%Z = true) as -> by lia.
  rewrite Hx. cbn. rewrite getitem_insert_ne, getitem_insert_eq by done.
  cbn. rewrite andb_true_r.
  destruct cached; [|done].
  unfold store_info. cbn. by destruct (use_storage_for_cache s).
Qed.

End Retrieve.

(** ** Effects of a call that goes to the network *)

Section RetrieveEffects.
Variable E : Env.

Lemma store_info_net_log k r s : net_log (store_info k r s) = net_log s.
Proof. unfold store_info. by destruct (use_storage_for_cache s). Qed.

Lemma store_simple_net_log k v s : net_log (store_simple k v s) = net_log s.
Proof. unfold store_simple. by destruct (use_storage_for_cache s). Qed.

(** On a miss the method returns a record and makes exactly one GET. *)
Lemma retrieve_article_info_miss u cached s :
  misses u cached s →
  ∃ r s', retrieve_article_info E u cached s = (Return r, s') ∧
          is_Some (r !! "success") ∧
          net_log s' = (net_log s ++ [GetCall u])%list.
Proof.
  intros Hm.
  destruct (requests_get E (net_log s) u) as [text code|msg] eqn:Hg.
  - destruct (decide (200 ≤ code < 300)%Z) as [Hc|Hc].
    + destruct (newspaper_fulltext E text) as [p|] eqn:Hx.
      * eexists _, _. split; [by apply retrieve_article_info_extracted|].
        split; [by simplify_map_eq|].
        destruct cached; [by rewrite store_info_net_log|done].
      * eexists _, _. split; [by apply retrieve_article_info_extraction_fails|].
        split; [by simplify_map_eq|done].
    + eexists _, _. split; [by apply retrieve_article_info_status|].
      split; [by simplify_map_eq|done].
  - eexists _, _. split; [by apply retrieve_article_info_transport|].
    split; [by simplify_map_eq|done].
Qed.

(** [retrieve_article_contents] changes the state as the call of
    [retrieve_article_info] inside it does. *)
Lemma retrieve_article_contents_exec u s :
  exec (retrieve_article_contents E u) s = exec (retrieve_article_info E u true) s.
Proof.
  unfold retrieve_article_contents. unfold_monad.
  destruct (retrieve_article_info E u true s) as [[data|e] s']; [|done].
  cbn. destruct (getitem data "success") as [b|]; [|done]. cbn.
  destruct (negb (truthy b)).
  - by destruct (getitem data "status_code").
  - by destruct (getitem data "plain_text").
Qed.

Lemma retrieve_article_contents_transport u s msg :
  misses u true s →
  requests_get E (net_log s) u = RequestException msg →
  retrieve_article_contents E u s
  = (Raise (KeyError "status_code"), log_call (GetCall u) s).
Proof.
  intros Hm Hg. unfold retrieve_article_contents. unfold_monad.
  by rewrite (retrieve_article_info_transport E u true s msg Hm Hg).
Qed.

Lemma retrieve_article_contents_status u s text code :
  misses u true s →
  requests_get E (net_log s) u = Response text code →
  ¬ (200 ≤ code < 300)%Z →
  retrieve_article_contents E u s
  = (Return (PStr ("Error " +:+ pretty code)), log_call (GetCall u) s).
Proof.
  intros Hm Hg Hc. unfold retrieve_article_contents. unfold_monad.
  by rewrite (retrieve_article_info_status E u true s text code Hm Hg Hc).
Qed.

Lemma retrieve_article_contents_extraction_fails u s text code :
  misses u true s →
  requests_get E (net_log s) u = Response text code →
  (200 ≤ code < 300)%Z →
  newspaper_fulltext E text = None →
  retrieve_article_contents E u s
  = (Return (PStr ("Error " +:+ pretty code)), log_call (GetCall u) s).
Proof.
  intros Hm Hg Hc Hx. unfold retrieve_article_contents. unfold_monad.
  by rewrite (retrieve_article_info_extraction_fails E u true s text code Hm Hg Hc Hx).
Qed.

Lemma retrieve_article_contents_extracted u s text code p :
  misses u true s →
  requests_get E (net_log s) u = Response text code →
  (200 ≤ code < 300)%Z →
  newspaper_fulltext E text = Some p →
  result (retrieve_article_contents E u) s = Return (PStr (article_cleanup E p)).
Proof.
  intros Hm Hg Hc Hx. unfold retrieve_article_contents. unfold_monad.
  by rewrite (retrieve_article_info_extracted E u true s text code p Hm Hg Hc Hx).
Qed.

End RetrieveEffects.

(** C6: when the GET of [retrieve_article_info] raises a
    [RequestException] (connection error, timeout, DNS failure), the method
    returns the record with exactly the keys [text], holding the message of
    the exception, and [success], holding [False]; the record has no
    [status_code], nothing is stored in a cache or written to a file, and
    no exception reaches the caller. *)
Theorem transport_failure_is_a_record E u cached s msg :
  misses u cached s →
  requests_get E (net_log s) u = RequestException msg →
  ∃ r s',
    retrieve_article_info E u cached s = (Return r, s') ∧
    r = <["success" := PBool false]> (<["text" := PStr msg]> ∅) ∧
    dom r = {[ "text"; "success" ]} ∧
    r !! "text" = Some (PStr msg) ∧
    r !! "success" = Some (PBool false) ∧
    r !! "status_code" = None ∧
    same_store s s' ∧
    net_log s' = (net_log s ++ [GetCall u])%list.
Proof.
  intros Hm Hg. eexists _, _.
  split; [by apply retrieve_article_info_transport|].
  split; [done|]. split; [|by simplify_map_eq].
  rewrite !dom_insert_L, dom_empty_L. set_solver.
Qed.

Lemma transport_failure_is_a_record_witness :
  ∃ r s',
    retrieve_article_info Demo.env "https://example.com/down" true (boot true)
    = (Return r, s') ∧
    r = <["success" := PBool false]> (<["text" := PStr "Connection refused"]> ∅) ∧
    dom r = {[ "text"; "success" ]} ∧
    r !! "text" = Some (PStr "Connection refused") ∧
    r !! "success" = Some (PBool false) ∧
    r !! "status_code" = None ∧
    same_store (boot true) s' ∧
    net_log s' = [GetCall "https://example.com/down"].
Proof.
  apply (transport_failure_is_a_record Demo.env "https://example.com/down" true
           (boot true) "Connection refused").
  - right. reflexivity.
  - reflexivity.
Defined.

(** C5: when the call goes to the network and the response has a status
    code outside [200,300), [retrieve_article_info] returns the record
    with [success] [False], the raw body in [text] and the [status_code],
    without [plain_text]; neither cache and neither file changes; and,
    the key being absent from the cache (as it is whenever the call was
    made with [cached] true), the next call with [cached] true issues the
    GET again. *)
Theorem non_2xx_is_failure_and_never_cached E u cached s text code :
  misses u cached s →
  requests_get E (net_log s) u = Response text code →
  ¬ (200 ≤ code < 300)%Z →
  ∃ r s',
    retrieve_article_info E u cached s = (Return r, s') ∧
    r !! "success" = Some (PBool false) ∧
    r !! "text" = Some (PStr text) ∧
    r !! "status_code" = Some (PInt code) ∧
    r !! "plain_text" = None ∧
    dom r = {[ "text"; "status_code"; "success" ]} ∧
    same_store s s' ∧
    net_log s' = (net_log s ++ [GetCall u])%list ∧
    (cached_articles_info s !! url_key u = None →
     ∃ r2 s2,
       retrieve_article_info E u true s' = (Return r2, s2) ∧
       net_log s2 = (net_log s ++ [GetCall u; GetCall u])%list).
Proof.
  intros Hm Hg Hc. eexists _, _.
  split; [by apply retrieve_article_info_status|].
  do 4 (split; [by simplify_map_eq|]).
  split; [rewrite !dom_insert_L, dom_empty_L; set_solver|].
  split; [apply (same_store_log_calls [_])|].
  split; [done|].
  intros Hk.
  destruct (retrieve_article_info_miss E u true (log_call (GetCall u) s))
    as (r2 & s2 & Hr2 & _ & Hlog); [by right|].
  exists r2, s2. split; [done|].
  rewrite Hlog. cbn. by rewrite <- app_assoc.
Qed.

Lemma non_2xx_is_failure_and_never_cached_witness :
  ∃ r s',
    retrieve_article_info Demo.env "https://example.com/missing" true (boot true)
    = (Return r, s') ∧
    r !! "success" = Some (PBool false) ∧
    r !! "text" = Some (PStr "Not Found") ∧
    r !! "status_code" = Some (PInt 404) ∧
    r !! "plain_text" = None ∧
    dom r = {[ "text"; "status_code"; "success" ]} ∧
    same_store (boot true) s' ∧
    net_log s' = [GetCall "https://example.com/missing"] ∧
    (cached_articles_info (boot true) !! url_key "https://example.com/missing" = None →
     ∃ r2 s2,
       retrieve_article_info Demo.env "https://example.com/missing" true s'
       = (Return r2, s2) ∧
       net_log s2 = [GetCall "https://example.com/missing";
                     GetCall "https://example.com/missing"]).
Proof.
  apply (non_2xx_is_failure_and_never_cached Demo.env
           "https://example.com/missing" true (boot true) "Not Found" 404).
  - right. reflexivity.
  - reflexivity.
  - lia.
Defined.

(** C3: on a URL whose GET raises a [RequestException],
    [retrieve_article_contents] does not return an error string: the record
    it gets has no [status_code], and the method raises [KeyError]. *)
Theorem retrieve_article_contents_raises_on_transport_failure :
  retrieve_article_contents Demo.env "https://example.com/down" (boot true)
  = (Raise (KeyError "status_code"),
     log_call (GetCall "https://example.com/down") (boot true)).
Proof. by apply retrieve_article_contents_transport with (msg := "Connection refused"); [right|]. Qed.

(** ** [fetch] and [simple_fetch], path by path *)

Section SimpleFetch.
Variable E : Env.

Lemma fetch_loop_spec srcs res s :
  fetch_loop E srcs res s
  = (Return (res ++ parsed_entries E (net_log s) srcs),
     log_calls (parse_calls srcs) s).
Proof.
  revert res s. induction srcs as [|src rest IH]; intros res s; cbn.
  - by rewrite app_nil_r, log_calls_nil.
  - unfold_monad. unfold feedparser_parse_call.
    destruct (feedparser_parse E (net_log s) (url src)) as [entries|];
      rewrite IH, log_call_log_calls, log_calls_app; cbn.
    + by rewrite app_assoc.
    + done.
Qed.

Lemma fetch_spec srcs s :
  fetch E srcs s
  = (list_sort (parsed_entries E (net_log s) (sources srcs)),
     log_calls (parse_calls (sources srcs)) s).
Proof.
  unfold fetch. unfold_monad. by rewrite fetch_loop_spec.
Qed.

Lemma simple_misses_lookup k cached s :
  simple_misses k cached s →
  (if cached then cached_simple_fetch s !! k else None) = None.
Proof. intros [-> | ->]; [done | by destruct cached]. Qed.

Lemma simple_fetch_hit srcs s k v :
  simple_fetch_key E srcs = Return k →
  cached_simple_fetch s !! k = Some v →
  simple_fetch E srcs true s = (Return v, s).
Proof.
  intros Hk Hv. unfold simple_fetch. unfold_monad. by rewrite Hk, Hv.
Qed.

Lemma simple_fetch_miss srcs cached s k data final :
  simple_fetch_key E srcs = Return k →
  simple_misses k cached s →
  list_sort (parsed_entries E (net_log s) (sources srcs)) = Return data →
  map_outcome (simplify E) data = Return final →
  simple_fetch E srcs cached s
  = (Return final,
     if cached && bool_decide (final ≠ [])
     then store_simple k final (log_calls (parse_calls (sources srcs)) s)
     else log_calls (parse_calls (sources srcs)) s).
Proof.
  intros Hk Hm Hd Hf. unfold simple_fetch. unfold_monad.
  rewrite Hk, (simple_misses_lookup _ _ _ Hm), fetch_spec, Hd, Hf.
  destruct (cached && bool_decide (final ≠ [])); [|done].
  unfold store_simple. cbn. by destruct (use_storage_for_cache s).
Qed.

(** Every way in which [simple_fetch] returns. *)
Lemma simple_fetch_returns srcs cached s v s1 :
  simple_fetch E srcs cached s = (Return v, s1) →
  ∃ k, simple_fetch_key E srcs = Return k ∧
    ((cached = true ∧ cached_simple_fetch s !! k = Some v ∧ s1 = s) ∨
     (simple_misses k cached s ∧
      ∃ data,
        list_sort (parsed_entries E (net_log s) (sources srcs)) = Return data ∧
        map_outcome (simplify E) data = Return v ∧
        s1 = if cached && bool_decide (v ≠ [])
             then store_simple k v (log_calls (parse_calls (sources srcs)) s)
             else log_calls (parse_calls (sources srcs)) s)).
Proof.
  intros H.
  destruct (simple_fetch_key E srcs) as [k|e] eqn:Hk;
    [|by unfold simple_fetch in H; unfold_monad; rewrite Hk in H].
  exists k. split; [done|].
  destruct (if cached then cached_simple_fetch s !! k else None) as [w|] eqn:Hw.
  - left. destruct cached; [|done].
    rewrite (simple_fetch_hit _ _ _ _ Hk Hw) in H. by simplify_eq.
  - right.
    assert (simple_misses k cached s) as Hm.
    { destruct cached; [by right|by left]. }
    split; [done|].
    destruct (list_sort (parsed_entries E (net_log s) (sources srcs)))
      as [data|e] eqn:Hd;
      [|by unfold simple_fetch in H; unfold_monad;
           rewrite Hk, Hw, fetch_spec, Hd in H].
    destruct (map_outcome (simplify E) data) as [final|e] eqn:Hf;
      [|by unfold simple_fetch in H; unfold_monad;
           rewrite Hk, Hw, fetch_spec, Hd, Hf in H].
    rewrite (simple_fetch_miss _ _ _ _ _ _ Hk Hm Hd Hf) in H. simplify_eq.
    by exists data.
Qed.

Lemma store_simple_lookup k v s : cached_simple_fetch (store_simple k v s) !! k = Some v.
Proof.
  unfold store_simple. destruct (use_storage_for_cache s); cbn; apply lookup_insert_eq.
Qed.

(** A non-empty list returned by a cache-enabled call is in the cache
    afterwards. *)
Lemma simple_fetch_cached_after srcs s v s1 :
  simple_fetch E srcs true s = (Return v, s1) →
  v ≠ [] →
  ∃ k, simple_fetch_key E srcs = Return k ∧ cached_simple_fetch s1 !! k = Some v.
Proof.
  intros H Hv. apply simple_fetch_returns in H as (k & Hk & H).
  exists k. split; [done|].
  destruct H as [(_ & Hl & ->)|(_ & data & _ & _ & ->)]; [done|].
  cbn. rewrite bool_decide_eq_true_2 by done. apply store_simple_lookup.
Qed.

End SimpleFetch.

(** ** What a cache-enabled call leaves in the cache *)

Section CachedAfter.
Variable E : Env.

Lemma store_info_lookup k r s : cached_articles_info (store_info k r s) !! k = Some r.
Proof.
  unfold store_info. destruct (use_storage_for_cache s); cbn; apply lookup_insert_eq.
Qed.

(** Every way in which [retrieve_article_info] ends on a miss. *)
Lemma retrieve_article_info_miss_cases u cached s :
  misses u cached s →
  ∃ r s', retrieve_article_info E u cached s = (Return r, s') ∧
    ((r !! "success" = Some (PBool false) ∧ s' = log_call (GetCall u) s) ∨
     (r !! "success" = Some (PBool true) ∧ is_Some (r !! "plain_text") ∧
      s' = if cached then store_info (url_key u) r (log_call (GetCall u) s)
           else log_call (GetCall u) s)).
Proof.
  intros Hm.
  destruct (requests_get E (net_log s) u) as [text code|msg] eqn:Hg.
  - destruct (decide (200 ≤ code < 300)%Z) as [Hc|Hc].
    + destruct (newspaper_fulltext E text) as [p|] eqn:Hx.
      * eexists _, _. split; [by apply retrieve_article_info_extracted|].
        right. split; [by simplify_map_eq|]. split; [by simplify_map_eq|done].
      * eexists _, _. split; [by apply retrieve_article_info_extraction_fails|].
        left. split; [by simplify_map_eq|done].
    + eexists _, _. split; [by apply retrieve_article_info_status|].
      left. split; [by simplify_map_eq|done].
  - eexists _, _. split; [by apply retrieve_article_info_transport|].
    left. split; [by simplify_map_eq|done].
Qed.

(** A successful record returned by a cache-enabled call has its
    [plain_text] and is in the cache afterwards; if the key was new, the
    call made one GET. *)
Lemma retrieve_article_info_cached_after u s r s1 :
  retrieve_article_info E u true s = (Return r, s1) →
  r !! "success" = Some (PBool true) →
  cached_articles_info s1 !! url_key u = Some r ∧
  is_Some (r !! "plain_text") ∧
  (cached_articles_info s !! url_key u = None →
   net_log s1 = net_log s ++ [GetCall u]).
Proof.
  intros H Hs.
  destruct (cached_articles_info s !! url_key u) as [r0|] eqn:Hl.
  - destruct (r0 !! "plain_text") as [p|] eqn:Hp.
    + rewrite (retrieve_article_info_hit E u s r0 Hl) in H by eauto.
      simplify_eq. split_and!; eauto; done.
    + by rewrite (retrieve_article_info_hit_no_plain_text E u s r0 Hl Hp) in H.
  - destruct (retrieve_article_info_miss_cases u true s) as (r' & s' & H' & Hc);
      [by right|].
    rewrite H' in H. simplify_eq.
    destruct Hc as [[Hf _]|(_ & Hp & ->)]; [congruence|].
    split; [apply store_info_lookup|]. split; [done|].
    intros _. by rewrite store_info_net_log.
Qed.

End CachedAfter.

(** ** The order on time structs and the sort *)

Lemma tuple_ltb_irrefl a : tuple_ltb a a = false.
Proof.
  induction a as [|x a IH]; [done|]. cbn.
  by rewrite Z.ltb_irrefl.
Qed.

Lemma tuple_ltb_asym a b : tuple_ltb a b = true → tuple_ltb b a = false.
Proof.
  revert b. induction a as [|x a IH]; intros [|y b]; cbn; try done.
  destruct (Z.ltb_spec x y), (Z.ltb_spec y x); try done; try lia.
  apply IH.
Qed.

Lemma tuple_ltb_neg_trans a b c :
  tuple_ltb a b = false → tuple_ltb b c = false → tuple_ltb a c = false.
Proof.
  revert b c. induction a as [|x a IH]; intros [|y b] [|z c]; cbn; try done.
  destruct (Z.ltb_spec x y), (Z.ltb_spec y x), (Z.ltb_spec y z), (Z.ltb_spec z y),
    (Z.ltb_spec x z), (Z.ltb_spec z x); try done; try lia.
  apply IH.
Qed.

(** The order is total: a tuple that is not below another is above it or
    equal to it. *)
Lemma tuple_ltb_total a b : tuple_ltb a b = false → tuple_ltb b a = true ∨ a = b.
Proof.
  revert b. induction a as [|x a IH]; intros [|y b]; cbn; try done; auto.
  destruct (Z.ltb_spec x y), (Z.ltb_spec y x); try done; try lia; auto.
  intros Ht. destruct (IH _ Ht) as [?| ->]; [by left|].
  right. f_equal. lia.
Qed.

Lemma not_older_trans x y z :
  has_time x = true → has_time y = true → has_time z = true →
  not_older x y → not_older y z → not_older x z.
Proof.
  unfold has_time, not_older.
  destruct (published_parsed x), (published_parsed y), (published_parsed z);
    try done.
  cbn. intros _ _ _. apply tuple_ltb_neg_trans.
Qed.

Lemma sort_insert_perm x l : sort_insert x l ≡ₚ x :: l.
Proof.
  induction l as [|y l IH]; [done|]. cbn.
  destruct (key_ltb _ _); [|done].
  rewrite IH. apply Permutation_swap.
Qed.

Lemma sort_reverse_perm l : sort_reverse l ≡ₚ l.
Proof.
  induction l as [|x l IH]; [done|]. cbn.
  by rewrite sort_insert_perm, IH.
Qed.

Lemma sort_insert_sorted x l :
  has_time x = true →
  Forall (λ y, has_time y = true) l →
  StronglySorted not_older l →
  StronglySorted not_older (sort_insert x l).
Proof.
  intros Hx Hl Hs. induction Hs as [|y l Hs IH Hy]; cbn.
  - repeat constructor.
  - apply Forall_cons in Hl as [Hty Hl].
    destruct (key_ltb (published_parsed x) (published_parsed y)) eqn:Hxy.
    + constructor; [by apply IH|].
      rewrite sort_insert_perm. constructor; [|done].
      unfold not_older. unfold has_time in Hx, Hty.
      destruct (published_parsed x), (published_parsed y); try done.
      by apply tuple_ltb_asym.
    + constructor; [by constructor|].
      constructor; [done|].
      rewrite Forall_forall in Hy, Hl |- *. intros z Hz.
      apply not_older_trans with y; auto.
Qed.

Lemma sort_reverse_sorted l :
  Forall (λ y, has_time y = true) l →
  StronglySorted not_older (sort_reverse l).
Proof.
  induction 1 as [|x l Hx Hl IH]; cbn; [constructor|].
  apply sort_insert_sorted; [done| |done].
  by rewrite sort_reverse_perm.
Qed.

(** With publication times everywhere the sort does not raise. *)
Lemma list_sort_has_time l :
  Forall (λ y, has_time y = true) l →
  list_sort l = Return (sort_reverse l).
Proof.
  intros Hl. unfold list_sort.
  assert (existsb lacks_attribute l = false) as ->.
  { apply not_true_is_false. rewrite existsb_exists. intros (x & Hin & Hx).
    rewrite Forall_forall in Hl. apply list_elem_of_In, Hl in Hin.
    unfold has_time in Hin. unfold lacks_attribute in Hx.
    by destruct (published_parsed x). }
  assert (existsb has_none_key l = false) as ->.
  { apply not_true_is_false. rewrite existsb_exists. intros (x & Hin & Hx).
    rewrite Forall_forall in Hl. apply list_elem_of_In, Hl in Hin.
    unfold has_time in Hin. unfold has_none_key in Hx.
    by destruct (published_parsed x). }
  by rewrite andb_false_r.
Qed.

(** Whenever the sort returns, it returns a rearrangement of its input in
    which no entry lacks the attribute. *)
Lemma list_sort_returns l res :
  list_sort l = Return res →
  res ≡ₚ l ∧ Forall (λ x, lacks_attribute x = false) res.
Proof.
  unfold list_sort. intros H.
  destruct (existsb lacks_attribute l) eqn:Ha; [done|].
  destruct ((1 <? length l)%nat && existsb has_none_key l); [done|].
  simplify_eq. split; [apply sort_reverse_perm|].
  rewrite sort_reverse_perm. apply Forall_forall. intros x Hx.
  apply not_true_is_false. intros Hl.
  apply not_true_iff_false in Ha. apply Ha, existsb_exists.
  exists x. by rewrite <- list_elem_of_In.
Qed.

(** ** The entries [fetch] collects *)

Section Fetch.
Variable E : Env.

Lemma parsed_entries_stationary log log' srcs :
  stationary_feeds E →
  parsed_entries E log srcs = parsed_entries E log' srcs.
Proof.
  intros Hst. revert log log'.
  induction srcs as [|src rest IH]; intros log log'; [done|]. cbn.
  by rewrite (Hst log log'), (IH _ (log' ++ [ParseCall (url src)])).
Qed.

Lemma parsed_entries_perm log srcs srcs' :
  stationary_feeds E →
  srcs ≡ₚ srcs' →
  parsed_entries E log srcs ≡ₚ parsed_entries E log srcs'.
Proof.
  intros Hst Hp. revert log.
  induction Hp as [|x l l' Hp IH|x y l|l l' l'' Hp IH Hp' IH']; intros log.
  - done.
  - cbn. by rewrite IH.
  - cbn.
    rewrite (Hst (log ++ [ParseCall (url y)]) log (url x)).
    rewrite (Hst (log ++ [ParseCall (url x)]) log (url y)).
    rewrite (parsed_entries_stationary
               ((log ++ [ParseCall (url y)]) ++ [ParseCall (url x)])
               ((log ++ [ParseCall (url x)]) ++ [ParseCall (url y)]) l Hst).
    rewrite !app_assoc. apply Permutation_app_tail, Permutation_app_comm.
  - by rewrite IH, IH'.
Qed.

(** A source whose parse raises contributes nothing and does not stop the
    loop. *)
Lemma fetch_skips_failing_source src rest s :
  feedparser_parse E (net_log s) (url src) = None →
  fetch E (SrcsList (src :: rest)) s
  = fetch E (SrcsList rest) (log_call (ParseCall (url src)) s).
Proof.
  intros Hf. rewrite !fetch_spec. cbn. rewrite Hf. cbn.
  by rewrite log_call_log_calls, log_calls_app.
Qed.

End Fetch.

(** C7: when every entry the feeds deliver carries a publication time,
    [fetch] returns; the list it returns holds exactly the entries of the
    sources whose parse succeeded and is sorted by publication time, most
    recent first.  This holds for every list of sources, hence in whatever
    order they are given; with feeds that do not change, reordering the
    sources only rearranges entries of equal rank.  A source whose parse
    raises is skipped and the remaining sources are still fetched. *)
Theorem fetch_sorted_most_recent_first E srcs s :
  Forall (λ x, has_time x = true) (parsed_entries E (net_log s) (sources srcs)) →
  ∃ res,
    fetch E srcs s = (Return res, log_calls (parse_calls (sources srcs)) s) ∧
    res ≡ₚ parsed_entries E (net_log s) (sources srcs) ∧
    StronglySorted not_older res ∧
    (∀ srcs',
       stationary_feeds E →
       sources srcs' ≡ₚ sources srcs →
       ∃ res', result (fetch E srcs') s = Return res' ∧
               res' ≡ₚ res ∧ StronglySorted not_older res') ∧
    (∀ src rest,
       sources srcs = src :: rest →
       feedparser_parse E (net_log s) (url src) = None →
       result (fetch E srcs) s
       = result (fetch E (SrcsList rest)) (log_call (ParseCall (url src)) s)).
Proof.
  intros Ht. exists (sort_reverse (parsed_entries E (net_log s) (sources srcs))).
  split; [by rewrite fetch_spec, list_sort_has_time|].
  split; [apply sort_reverse_perm|].
  split; [by apply sort_reverse_sorted|].
  split.
  - intros srcs' Hst Hp.
    pose proof (parsed_entries_perm E (net_log s) _ _ Hst Hp) as Hpe.
    assert (Forall (λ x, has_time x = true)
              (parsed_entries E (net_log s) (sources srcs'))) as Ht'
      by by rewrite Hpe.
    exists (sort_reverse (parsed_entries E (net_log s) (sources srcs'))).
    split; [by unfold result; rewrite fetch_spec, list_sort_has_time|].
    split; [by rewrite !sort_reverse_perm|by apply sort_reverse_sorted].
  - intros src rest Hs Hf. unfold result.
    rewrite !fetch_spec, Hs. cbn. by rewrite Hf.
Qed.

Lemma fetch_sorted_most_recent_first_witness :
  ∃ res,
    fetch Demo.env SrcsNone (boot true)
    = (Return res, log_calls (parse_calls feeds) (boot true)) ∧
    res ≡ₚ [Demo.e1; Demo.e2; Demo.e3] ∧
    StronglySorted not_older res.
Proof.
  destruct (fetch_sorted_most_recent_first Demo.env SrcsNone (boot true))
    as (res & H1 & H2 & H3 & _).
  - vm_compute. repeat constructor.
  - exists res. split; [exact H1|]. split; [exact H2|exact H3].
Defined.

(** ** The simplified summaries *)

Section Summaries.
Variable E : Env.

Lemma simplify_item x d : simplify E x = Return d → item_of E x d.
Proof.
  unfold simplify, index, getattr, item_of, first_href. unfold_monad.
  destruct (links x) as [[|[href|] rest]|]; cbn; try done.
  destruct (title x) as [t|]; cbn; [|done].
  destruct (published_value (published_parsed x)) as [p|]; [|done].
  intros [= <-].
  split; [rewrite !dom_insert_L, dom_empty_L; unfold summary_keys; set_solver|].
  split; [by simplify_map_eq|]. split; [by simplify_map_eq|].
  split; [by eexists|].
  rewrite lookup_insert_eq.
  split; [|by intros t' ->].
  destruct (summary x); naive_solver.
Qed.

Lemma simplify_returns x :
  has_link_and_title x = true →
  lacks_attribute x = false →
  ∃ d, simplify E x = Return d.
Proof.
  unfold simplify, index, getattr, has_link_and_title, first_href, lacks_attribute.
  unfold_monad.
  destruct (links x) as [[|[href|] rest]|]; cbn; try done.
  destruct (title x) as [t|]; cbn; [|done]. intros _.
  destruct (published_parsed x); [done|eauto..].
Qed.

Lemma map_simplify_items data final :
  map_outcome (simplify E) data = Return final → Forall2 (item_of E) data final.
Proof.
  revert final. induction data as [|x data IH]; intros final; cbn.
  - intros [= <-]. constructor.
  - unfold_monad.
    destruct (simplify E x) as [d|] eqn:Hd; [|done].
    destruct (map_outcome (simplify E) data) as [ds|]; [|done].
    intros [= <-]. constructor; [by apply simplify_item|by apply IH].
Qed.

Lemma map_simplify_returns data :
  Forall (λ x, has_link_and_title x = true) data →
  Forall (λ x, lacks_attribute x = false) data →
  ∃ final, map_outcome (simplify E) data = Return final.
Proof.
  induction 1 as [|x data Hx Hd IH]; intros Ha; cbn; [eauto|].
  apply Forall_cons in Ha as [Hax Ha].
  destruct (simplify_returns x Hx Hax) as [d ->].
  destruct (IH Ha) as [ds ->]. unfold_monad. eauto.
Qed.

End Summaries.

(** C9: on a call that goes through [fetch], the list [simple_fetch]
    returns has one item per entry [fetch] returned, in the same order;
    each item is a dictionary whose keys are exactly [url], [title],
    [published_on] and [short_summary], and its [short_summary] is [None]
    exactly when the entry has no [summary].  The call returns whenever
    every entry has a title and a first link with its [href]. *)
Theorem simple_fetch_items_have_four_keys E srcs cached s k data :
  simple_fetch_key E srcs = Return k →
  simple_misses k cached s →
  result (fetch E srcs) s = Return data →
  (Forall (λ x, has_link_and_title x = true) data →
   ∃ final, result (simple_fetch E srcs cached) s = Return final) ∧
  (∀ final,
     result (simple_fetch E srcs cached) s = Return final →
     Forall2 (λ x d,
                dom d = {[ "url"; "title"; "published_on"; "short_summary" ]} ∧
                (d !! "short_summary" = Some PNone ↔ summary x = None) ∧
                item_of E x d)
             data final).
Proof.
  intros Hk Hm Hf. unfold result in Hf. rewrite fetch_spec in Hf. cbn in Hf.
  destruct (list_sort_returns _ _ Hf) as [_ Ha].
  split.
  - intros Hl. destruct (map_simplify_returns E data Hl Ha) as [final Hfinal].
    exists final. unfold result.
    by rewrite (simple_fetch_miss E srcs cached s k data final).
  - intros final H. unfold result in H.
    destruct (simple_fetch E srcs cached s) as [o s1] eqn:Hs. cbn in H. subst o.
    apply simple_fetch_returns in Hs as (k' & Hk' & Hs).
    assert (k' = k) as -> by congruence.
    destruct Hs as [(-> & Hl & _)|(_ & data' & Hd' & Hmap & _)].
    { destruct Hm as [?|Hn]; [done|]. by rewrite Hn in Hl. }
    assert (data' = data) as -> by congruence.
    apply map_simplify_items in Hmap.
    eapply Forall2_impl; [exact Hmap|].
    intros x d Hi. split; [apply Hi|]. split; [apply Hi|done].
Qed.

Lemma simple_fetch_items_have_four_keys_witness :
  ∃ final,
    result (simple_fetch Demo.env SrcsNone true) (boot true) = Return final ∧
    Forall2 (λ x d,
               dom d = {[ "url"; "title"; "published_on"; "short_summary" ]} ∧
               (d !! "short_summary" = Some PNone ↔ summary x = None) ∧
               item_of Demo.env x d)
            [Demo.e2; Demo.e3; Demo.e1] final.
Proof.
  destruct (simple_fetch_items_have_four_keys Demo.env SrcsNone true (boot true)
              "URL<None>" [Demo.e2; Demo.e3; Demo.e1]) as [H1 H2].
  - reflexivity.
  - right. reflexivity.
  - vm_compute. reflexivity.
  - destruct H1 as [final Hfinal].
    + repeat constructor.
    + exists final. split; [exact Hfinal|]. apply H2, Hfinal.
Defined.

(** C10: an empty list of sources and the default sources give the same
    cache key, [URL<None>].  A fetch of no sources yields the empty list,
    and so does [simple_fetch] on the empty list without the cache; with
    [cached] true it returns whatever is stored under [URL<None>], in
    particular the non-empty list a cache-enabled call with the default
    sources has stored. *)
Theorem empty_source_list_shares_default_key E :
  simple_fetch_key E (SrcsList []) = Return "URL<None>" ∧
  simple_fetch_key E SrcsNone = Return "URL<None>" ∧
  (∀ s, fetch E (SrcsList []) s = (Return [], s)) ∧
  (∀ s, simple_fetch E (SrcsList []) false s = (Return [], s)) ∧
  (∀ s v,
     cached_simple_fetch s !! "URL<None>" = Some v →
     simple_fetch E (SrcsList []) true s = (Return v, s)) ∧
  (∀ s v s1,
     simple_fetch E SrcsNone true s = (Return v, s1) →
     v ≠ [] →
     simple_fetch E (SrcsList []) true s1 = (Return v, s1)).
Proof.
  split; [done|]. split; [done|].
  split; [intros s; by rewrite fetch_spec, log_calls_nil|].
  split.
  { intros s.
    rewrite (simple_fetch_miss E (SrcsList []) false s "URL<None>" [] []);
      [by rewrite log_calls_nil|done|by left|done|done]. }
  split; [intros s v; by apply simple_fetch_hit|].
  intros s v s1 H Hv.
  destruct (simple_fetch_cached_after E SrcsNone s v s1 H Hv) as (k & Hk & Hl).
  apply simple_fetch_hit with k; [|done].
  by rewrite <- Hk.
Qed.

Lemma empty_source_list_shares_default_key_witness :
  simple_fetch Demo.env (SrcsList []) true Demo.with_summary
  = (Return [Demo.summary1], Demo.with_summary) ∧
  simple_fetch Demo.env (SrcsList []) false Demo.with_summary
  = (Return [], Demo.with_summary).
Proof.
  destruct (empty_source_list_shares_default_key Demo.env)
    as (_ & _ & _ & H4 & H5 & _).
  split; [|apply H4].
  apply H5. vm_compute. reflexivity.
Defined.

(** ** JSON and back *)

Lemma pyval_nested_ind (P : pyval → Prop) :
  P PNone → (∀ b, P (PBool b)) → (∀ z, P (PInt z)) → (∀ s, P (PStr s)) →
  (∀ l, Forall P l → P (PList l)) →
  (∀ l, Forall P l → P (PTuple l)) →
  ∀ v, P v.
Proof.
  intros HN HB HI HS HL HT. fix IH 1. intros [ | b | z | s | l | l ];
    [apply HN|apply HB|apply HI|apply HS| | ].
  - apply HL. revert l. fix IHl 1. intros [|x l]; constructor; [apply IH|apply IHl].
  - apply HT. revert l. fix IHl 1. intros [|x l]; constructor; [apply IH|apply IHl].
Qed.

Lemma json_loads_dumps_value v : json_loads_value (json_dumps_value v) = listify v.
Proof.
  induction v as [ | | | |l IH|l IH] using pyval_nested_ind; cbn; try done.
  - f_equal. rewrite map_map. apply map_ext_Forall, IH.
  - f_equal. rewrite map_map. apply map_ext_Forall, IH.
Qed.

Lemma listify_tuple_free v : tuple_free v = true → listify v = v.
Proof.
  induction v as [ | | | |l IH|l IH] using pyval_nested_ind; cbn; try done.
  intros Hf. f_equal. rewrite forallb_forall in Hf.
  rewrite <- (map_id l) at 2. apply map_ext_Forall.
  rewrite Forall_forall in IH |- *. intros x Hx.
  apply IH; [done|]. apply Hf. by apply list_elem_of_In.
Qed.

Lemma listify_is_tuple_free v : tuple_free (listify v) = true.
Proof.
  induction v as [ | | | |l IH|l IH] using pyval_nested_ind; cbn; try done.
  - rewrite forallb_forall. intros y Hy. apply in_map_iff in Hy as (x & <- & Hx).
    rewrite Forall_forall in IH. apply IH. by apply list_elem_of_In.
  - rewrite forallb_forall. intros y Hy. apply in_map_iff in Hy as (x & <- & Hx).
    rewrite Forall_forall in IH. apply IH. by apply list_elem_of_In.
Qed.

Lemma json_loads_dumps_dict (d : pydict) :
  json_loads_dict (json_dumps_dict d) = listify_dict d.
Proof.
  unfold json_loads_dict, json_dumps_dict, listify_dict. rewrite <- map_fmap_compose.
  apply map_fmap_ext. intros k v _. apply json_loads_dumps_value.
Qed.

Lemma json_loads_dumps_info (c : gmap string pydict) :
  json_loads_info (json_dumps_info c) = listify_dict <$> c.
Proof.
  unfold json_loads_info, json_dumps_info. rewrite <- map_fmap_compose.
  apply map_fmap_ext. intros k v _. apply json_loads_dumps_dict.
Qed.

Lemma json_loads_dumps_simple (c : gmap string (list pydict)) :
  json_loads_simple (json_dumps_simple c) = map listify_dict <$> c.
Proof.
  unfold json_loads_simple, json_dumps_simple. rewrite <- map_fmap_compose.
  apply map_fmap_ext. intros k v _. cbn. rewrite map_map.
  apply map_ext. intros d. apply json_loads_dumps_dict.
Qed.

(** What a new instance finds after a save: both dictionaries, with every
    tuple in them turned into a list. *)
Lemma save_then_new_instance s :
  let s' := exec (Fetcher_init true) (exec saveCacheToStorage s) in
  cached_simple_fetch s' = map listify_dict <$> cached_simple_fetch s ∧
  cached_articles_info s' = listify_dict <$> cached_articles_info s.
Proof.
  cbn. split; [apply json_loads_dumps_simple|apply json_loads_dumps_info].
Qed.

(** The round trip is exact on dictionaries without tuples. *)
Lemma save_then_new_instance_tuple_free s :
  map_Forall (λ _ (v : list pydict), Forall dict_tuple_free v)
             (cached_simple_fetch s) →
  map_Forall (λ _ r, dict_tuple_free r) (cached_articles_info s) →
  let s' := exec (Fetcher_init true) (exec saveCacheToStorage s) in
  cached_simple_fetch s' = cached_simple_fetch s ∧
  cached_articles_info s' = cached_articles_info s.
Proof.
  intros Hs Hi s'. destruct (save_then_new_instance s) as [H1 H2].
  subst s'. rewrite H1, H2. clear H1 H2.
  assert (∀ d : pydict, dict_tuple_free d → listify_dict d = d) as Hd.
  { intros d Hd. unfold listify_dict. rewrite <- (map_fmap_id d) at 2.
    apply map_fmap_ext.
    intros k x Hx. apply listify_tuple_free. by apply (Hd k). }
  split.
  - rewrite <- (map_fmap_id (cached_simple_fetch s)) at 2. apply map_fmap_ext.
    intros k v Hv. cbn. rewrite <- (map_id v) at 2. apply map_ext_Forall.
    eapply Forall_impl; [exact (Hs k v Hv)|]. intros d. apply Hd.
  - rewrite <- (map_fmap_id (cached_articles_info s)) at 2. apply map_fmap_ext.
    intros k r Hr. apply Hd. exact (Hi k r Hr).
Qed.

(** C4: the round trip through the cache files does not give back the
    simple-fetch cache.  After a cache-enabled [simple_fetch] the first
    summary holds its publication time as a time struct, a tuple; a new
    instance reading the saved file holds a list in its place, which no
    tuple equals. *)
Theorem round_trip_turns_time_struct_into_list :
  let s := exec (simple_fetch Demo.env SrcsNone true) (boot true) in
  let s' := exec (Fetcher_init true) (exec saveCacheToStorage s) in
  let t := map PInt [2020; 5; 18; 9; 30; 0; 0; 139; 0] in
  (∃ items items',
     cached_simple_fetch s !! "URL<None>" = Some items ∧
     cached_simple_fetch s' !! "URL<None>" = Some items' ∧
     (items !! 0%nat) ≫= (λ d : pydict, d !! "published_on") = Some (PTuple t) ∧
     (items' !! 0%nat) ≫= (λ d : pydict, d !! "published_on") = Some (PList t)) ∧
  py_eq (PTuple t) (PList t) = false ∧
  cached_simple_fetch s' ≠ cached_simple_fetch s.
Proof.
  intros s s' t.
  assert (∃ items items',
     cached_simple_fetch s !! "URL<None>" = Some items ∧
     cached_simple_fetch s' !! "URL<None>" = Some items' ∧
     (items !! 0%nat) ≫= (λ d : pydict, d !! "published_on") = Some (PTuple t) ∧
     (items' !! 0%nat) ≫= (λ d : pydict, d !! "published_on") = Some (PList t))
    as H.
  { eexists _, _. split; [vm_compute; reflexivity|].
    split; [vm_compute; reflexivity|]. split; vm_compute; reflexivity. }
  split; [exact H|]. split; [reflexivity|].
  destruct H as (items & items' & H1 & H2 & H3 & H4).
  intros Heq. rewrite Heq, H1 in H2. by simplify_eq.
Qed.

(** ** The cache invariant *)

Section Invariant.
Variable E : Env.

Lemma inv_same_store s s' : same_store s s' → inv s → inv s'.
Proof.
  intros (_ & H1 & H2 & H3 & H4) [[Hs Hi] [Hfs Hfi]].
  unfold inv, cache_inv, storage_inv. rewrite H1, H2, H3, H4. done.
Qed.

Lemma inv_log_calls cs s : inv s → inv (log_calls cs s).
Proof. apply inv_same_store, same_store_log_calls. Qed.

Lemma info_ok_dumps r : info_ok r → info_doc_ok (json_dumps_dict r).
Proof.
  intros [Hs [p Hp]]. unfold info_doc_ok, json_dumps_dict.
  rewrite !lookup_fmap, Hs, Hp. eauto.
Qed.

Lemma info_ok_loads r : info_doc_ok r → info_ok (json_loads_dict r).
Proof.
  intros [Hs [p Hp]]. unfold info_ok, json_loads_dict.
  rewrite !lookup_fmap, Hs, Hp. eauto.
Qed.

Lemma inv_save_files s : cache_inv s → inv (save_files s).
Proof.
  intros [Hs Hi]. split; [done|]. split; cbn; intros doc [= <-].
  - unfold json_dumps_simple. apply map_Forall_fmap.
    intros k v Hv. cbn. specialize (Hs k v Hv). cbn in Hs. by destruct v.
  - unfold json_dumps_info. apply map_Forall_fmap.
    intros k r Hr. apply info_ok_dumps, (Hi k r Hr).
Qed.

Lemma inv_store_simple k v s : inv s → v ≠ [] → inv (store_simple k v s).
Proof.
  intros [[Hs Hi] Hst] Hv.
  assert (cache_inv (set_cached_simple_fetch (<[k := v]> (cached_simple_fetch s)) s)) as Hc.
  { split; [|done]. cbn. by apply map_Forall_insert_2. }
  unfold store_simple. destruct (use_storage_for_cache s); [by apply inv_save_files|].
  by split.
Qed.

Lemma inv_store_info k r s : inv s → info_ok r → inv (store_info k r s).
Proof.
  intros [[Hs Hi] Hst] Hr.
  assert (cache_inv (set_cached_articles_info (<[k := r]> (cached_articles_info s)) s)) as Hc.
  { split; [done|]. cbn. by apply map_Forall_insert_2. }
  unfold store_info. destruct (use_storage_for_cache s); [by apply inv_save_files|].
  by split.
Qed.

Lemma loads_simple_nonempty doc :
  map_Forall (λ _ (v : list jsondict), v ≠ []) doc →
  map_Forall (λ _ (v : list pydict), v ≠ []) (json_loads_simple doc).
Proof.
  intros H. unfold json_loads_simple. apply map_Forall_fmap.
  intros k v Hv. cbn. specialize (H k v Hv). cbn in H. by destruct v.
Qed.

Lemma loads_info_ok doc :
  map_Forall (λ _ r, info_doc_ok r) doc →
  map_Forall (λ _ r, info_ok r) (json_loads_info doc).
Proof.
  intros H. unfold json_loads_info. apply map_Forall_fmap.
  intros k r Hr. apply info_ok_loads, (H k r Hr).
Qed.

Lemma inv_readCacheFromStorage s : inv s → inv (exec readCacheFromStorage s).
Proof.
  intros [[Hs Hi] [Hfs Hfi]]. unfold readCacheFromStorage. unfold_monad. cbn.
  destruct (simple_fetch_json s) as [ds|] eqn:Hds;
    destruct (articles_info_json s) as [di|] eqn:Hdi; cbn.
  - split; [split; cbn|split; cbn; by rewrite ?Hds, ?Hdi].
    + by apply loads_simple_nonempty, Hfs.
    + by apply loads_info_ok, Hfi.
  - split; [split; cbn|split; cbn; by rewrite ?Hds, ?Hdi].
    + by apply loads_simple_nonempty, Hfs.
    + done.
  - split; [split; cbn|split; cbn; by rewrite ?Hds, ?Hdi].
    + done.
    + by apply loads_info_ok, Hfi.
  - split; [split; cbn|split; cbn; by rewrite ?Hds, ?Hdi]; done.
Qed.

Lemma inv_Fetcher_init b s : inv s → inv (exec (Fetcher_init b) s).
Proof.
  intros [Hc Hst].
  assert (inv (mkState b ∅ ∅ (simple_fetch_json s) (articles_info_json s) (net_log s)))
    as H0.
  { split; [split; cbn; apply map_Forall_empty|exact Hst]. }
  unfold Fetcher_init. unfold_monad. cbn.
  destruct b; [|exact H0].
  by apply inv_readCacheFromStorage in H0.
Qed.

(** The state [simple_fetch] leaves, whether it returns or raises. *)
Lemma simple_fetch_exec srcs cached s :
  let s1 := log_calls (parse_calls (sources srcs)) s in
  exec (simple_fetch E srcs cached) s = s ∨
  exec (simple_fetch E srcs cached) s = s1 ∨
  ∃ k v, v ≠ [] ∧ exec (simple_fetch E srcs cached) s = store_simple k v s1.
Proof.
  intros s1. unfold exec.
  destruct (simple_fetch E srcs cached s) as [[v|e] s2] eqn:H; cbn.
  - apply simple_fetch_returns in H as (k & Hk & H).
    destruct H as [(_ & _ & ->)|(_ & data & _ & _ & ->)]; [by left|].
    right. destruct cached; cbn; [|by left].
    case_bool_decide; [right; by exists k, v|by left].
  - unfold simple_fetch in H. unfold_monad.
    destruct (simple_fetch_key E srcs) as [k|]; [|left; by simplify_eq].
    destruct (if cached then cached_simple_fetch s !! k else None); [done|].
    rewrite fetch_spec in H.
    destruct (list_sort _) as [data|]; [|right; left; by simplify_eq].
    destruct (map_outcome (simplify E) data) as [final|];
      [|right; left; by simplify_eq].
    destruct (cached && bool_decide (final ≠ [])); [|done].
    cbn in H. by destruct (use_storage_for_cache s).
Qed.

(** The state [retrieve_article_info] leaves. *)
Lemma retrieve_article_info_exec u cached s :
  let s1 := log_call (GetCall u) s in
  exec (retrieve_article_info E u cached) s = s ∨
  exec (retrieve_article_info E u cached) s = s1 ∨
  ∃ r, info_ok r ∧
       exec (retrieve_article_info E u cached) s = store_info (url_key u) r s1.
Proof.
  intros s1. unfold exec.
  destruct (if cached then cached_articles_info s !! url_key u else None)
    as [r|] eqn:Hl.
  - destruct cached; [|done]. left.
    destruct (r !! "plain_text") as [p|] eqn:Hp.
    + by rewrite (retrieve_article_info_hit E u s r Hl) by eauto.
    + by rewrite (retrieve_article_info_hit_no_plain_text E u s r Hl Hp).
  - assert (misses u cached s) as Hm by (destruct cached; [by right|by left]).
    destruct (retrieve_article_info_miss_cases E u cached s Hm)
      as (r & s' & -> & [[_ ->]|(Hs & Hp & ->)]); cbn; [by right; left|].
    right. destruct cached; [right; by exists r|by left].
Qed.

Lemma inv_run_call c s : inv s → inv (run_call E c s).
Proof.
  intros Hi. destruct c as [b|srcs|srcs cached|u|u cached|u| |]; cbn.
  - by apply inv_Fetcher_init.
  - unfold exec. rewrite fetch_spec. by apply inv_log_calls.
  - destruct (simple_fetch_exec srcs cached s) as [->|[->|(k & v & Hv & ->)]];
      [done|by apply inv_log_calls|].
    apply inv_store_simple; [by apply inv_log_calls|done].
  - done.
  - destruct (retrieve_article_info_exec u cached s) as [->|[->|(r & Hr & ->)]];
      [done|by apply (inv_log_calls [_])|].
    apply inv_store_info; [by apply (inv_log_calls [_])|done].
  - rewrite retrieve_article_contents_exec.
    destruct (retrieve_article_info_exec u true s) as [->|[->|(r & Hr & ->)]];
      [done|by apply (inv_log_calls [_])|].
    apply inv_store_info; [by apply (inv_log_calls [_])|done].
  - apply inv_save_files, Hi.
  - by apply inv_readCacheFromStorage.
Qed.

Lemma inv_boot b : inv (boot b).
Proof.
  split; split; cbn; try apply map_Forall_empty; done.
Qed.

Lemma reachable_inv s : reachable E s → inv s.
Proof.
  induction 1 as [b|s c _ IH]; [apply inv_boot|by apply inv_run_call].
Qed.

End Invariant.

(** ** Results that are not stored *)

Section NotStored.
Variable E : Env.

Lemma simple_fetch_empty_not_stored srcs cached s s1 :
  simple_fetch E srcs cached s = (Return [], s1) → same_store s s1.
Proof.
  intros H. apply simple_fetch_returns in H as (k & _ & H).
  destruct H as [(_ & _ & ->)|(_ & data & _ & _ & ->)]; [apply same_store_refl|].
  rewrite bool_decide_eq_false_2, andb_false_r by (intros H; by apply H).
  apply same_store_log_calls.
Qed.

Lemma retrieve_article_info_failed_not_stored u cached s r s1 :
  retrieve_article_info E u cached s = (Return r, s1) →
  r !! "success" ≠ Some (PBool true) →
  same_store s s1.
Proof.
  intros H Hs.
  destruct (if cached then cached_articles_info s !! url_key u else None)
    as [r0|] eqn:Hl.
  - destruct cached; [|done].
    destruct (r0 !! "plain_text") as [p|] eqn:Hp.
    + rewrite (retrieve_article_info_hit E u s r0 Hl) in H by eauto.
      simplify_eq. apply same_store_refl.
    + by rewrite (retrieve_article_info_hit_no_plain_text E u s r0 Hl Hp) in H.
  - assert (misses u cached s) as Hm by (destruct cached; [by right|by left]).
    destruct (retrieve_article_info_miss_cases E u cached s Hm)
      as (r' & s' & H' & Hc).
    rewrite H' in H. simplify_eq.
    destruct Hc as [[_ ->]|(Ht & _)]; [apply (same_store_log_calls [_])|done].
Qed.

End NotStored.

(** C8: only successful results are stored.  The invariant, that every
    list in the simple-fetch cache is non-empty and every record in the
    article-info cache has [success] [True] and a [plain_text] key, in
    memory and in the cache files, holds when a process starts without
    cache files and is preserved by every operation, whether it returns or
    raises; so it holds in every state the process reaches.  A call that
    returns an empty list, or a record whose [success] is not [True],
    leaves both caches and both files as they were. *)
Theorem only_successful_results_are_cached E :
  (∀ b, inv (boot b)) ∧
  (∀ c s, inv s → inv (run_call E c s)) ∧
  (∀ s, reachable E s →
     (∀ k v, cached_simple_fetch s !! k = Some v → v ≠ []) ∧
     (∀ k r, cached_articles_info s !! k = Some r →
             r !! "success" = Some (PBool true) ∧ is_Some (r !! "plain_text"))) ∧
  (∀ srcs cached s s1,
     simple_fetch E srcs cached s = (Return [], s1) → same_store s s1) ∧
  (∀ u cached s r s1,
     retrieve_article_info E u cached s = (Return r, s1) →
     r !! "success" ≠ Some (PBool true) →
     same_store s s1).
Proof.
  split; [apply inv_boot|].
  split; [intros c s; apply inv_run_call|].
  split.
  - intros s Hr. destruct (reachable_inv E s Hr) as [[Hs Hi] _].
    split; [intros k v Hv; apply (Hs k v Hv)|intros k r Hk; apply (Hi k r Hk)].
  - split; [apply simple_fetch_empty_not_stored
           |apply retrieve_article_info_failed_not_stored].
Qed.

Lemma only_successful_results_are_cached_witness :
  let s1 := run_call Demo.env
              (CallRetrieveArticleInfo "https://example.com/ok" true) (boot true) in
  let s2 := run_call Demo.env
              (CallRetrieveArticleInfo "https://example.com/missing" true) s1 in
  inv s2 ∧
  dom (cached_articles_info s2) = {[ "URL<https://example.com/ok>" ]}.
Proof.
  intros s1 s2.
  destruct (only_successful_results_are_cached Demo.env) as (H0 & Hstep & _).
  split.
  - apply Hstep, Hstep, H0.
  - vm_compute. reflexivity.
Defined.

(** ** [get_url_domain] *)

Lemma split_app_sep sep w s :
  has_char sep w = false →
  split sep (w +:+ String sep s) = w :: split sep s.
Proof.
  induction w as [|c w IH]; simpl.
  - intros _. by rewrite Ascii.eqb_refl.
  - intros H. apply orb_false_iff in H as [Hc Hw].
    rewrite Hc, (IH Hw). done.
Qed.

Lemma has_char_app c w w' :
  has_char c (w +:+ w') = has_char c w || has_char c w'.
Proof.
  induction w as [|c' w IH]; simpl; [done|]. by rewrite IH, orb_assoc.
Qed.

Lemma scheme_colon_not_http scheme :
  String.eqb (scheme +:+ ":") "http" = false ∧
  String.eqb (scheme +:+ ":") "https" = false.
Proof.
  split; apply String.eqb_neq;
    destruct scheme as [|c1 [|c2 [|c3 [|c4 [|c5 [|c6 scheme]]]]]]; cbn;
    intros H; simplify_eq.
Qed.

Lemma append_assoc (a b c : string) : (a +:+ b) +:+ c = a +:+ b +:+ c.
Proof.
  induction a as [|x a IH]; [done|].
  change (String x ((a +:+ b) +:+ c) = String x (a +:+ b +:+ c)). by rewrite IH.
Qed.

Lemma append_assoc_colon scheme rest :
  (scheme +:+ ":") +:+ String "/" ("" +:+ String "/" rest)
  = scheme +:+ "://" +:+ rest.
Proof. by rewrite append_assoc. Qed.

(** The method never raises. *)
Lemma get_url_domain_returns u : ∃ r, get_url_domain u = Return r.
Proof.
  unfold get_url_domain, index. unfold_monad.
  destruct (split "/" u !! 1%nat) as [c1|]; [|eauto].
  destruct (String.eqb c1 ""); [|eauto].
  destruct (split "/" u !! 0%nat) as [c0|]; [|eauto].
  destruct (String.eqb c0 "http" || String.eqb c0 "https"); [|eauto].
  destruct (split "/" u !! 2%nat); eauto.
Qed.

(** For every absolute URL the first component of the split ends with the
    colon of [scheme://], so it is neither [http] nor [https] and the
    method returns [None]. *)
Lemma get_url_domain_absolute scheme rest :
  has_char "/" scheme = false →
  get_url_domain (scheme +:+ "://" +:+ rest) = Return None.
Proof.
  intros Hs. unfold get_url_domain.
  assert (split "/" (scheme +:+ "://" +:+ rest)
          = (scheme +:+ ":") :: "" :: split "/" rest) as ->.
  { rewrite <- (append_assoc_colon scheme rest).
    rewrite split_app_sep by (by rewrite has_char_app, Hs).
    by rewrite (split_app_sep "/" "" rest). }
  unfold index. unfold_monad. cbn.
  destruct (scheme_colon_not_http scheme) as [-> ->]. done.
Qed.

(** C2: on [https://example.com/a/b] the method does not return the host:
    the split gives [https:] as first component, the comparison with
    [http] and [https] fails, and the method returns [None].  The two
    inputs without a scheme give [None]. *)
Theorem get_url_domain_of_absolute_url_is_none :
  split "/" "https://example.com/a/b" = ["https:"; ""; "example.com"; "a"; "b"] ∧
  get_url_domain "https://example.com/a/b" = Return None ∧
  get_url_domain "/relative/path" = Return None ∧
  get_url_domain "not a url" = Return None.
Proof. repeat split; reflexivity. Qed.

(** ** Consequences for a process that starts without cache files *)

Section Reachable.
Variable E : Env.

(** In such a process every cache hit of [retrieve_article_info] returns
    the stored record. *)
Lemma cache_hit_reachable u s r :
  reachable E s →
  cached_articles_info s !! url_key u = Some r →
  retrieve_article_info E u true s = (Return r, s).
Proof.
  intros Hr Hl. destruct (reachable_inv E s Hr) as [[_ Hi] _].
  apply retrieve_article_info_hit; [done|]. apply (Hi _ _ Hl).
Qed.

Lemma json_nested_ind (P : json → Prop) :
  P JNull → (∀ b, P (JBool b)) → (∀ z, P (JNum z)) → (∀ s, P (JStr s)) →
  (∀ l, Forall P l → P (JArr l)) →
  ∀ j, P j.
Proof.
  intros HN HB HI HS HL. fix IH 1. intros [ | b | z | s | l ];
    [apply HN|apply HB|apply HI|apply HS| ].
  apply HL. revert l. fix IHl 1. intros [|x l]; constructor; [apply IH|apply IHl].
Qed.

Lemma json_loads_tuple_free j : tuple_free (json_loads_value j) = true.
Proof.
  induction j as [ | | | |l IH] using json_nested_ind; cbn; try done.
  rewrite forallb_forall. intros y Hy. apply in_map_iff in Hy as (x & <- & Hx).
  rewrite Forall_forall in IH. apply IH. by apply list_elem_of_In.
Qed.

Lemma json_loads_info_tuple_free doc :
  map_Forall (λ _ r, dict_tuple_free r) (json_loads_info doc).
Proof.
  unfold json_loads_info. apply map_Forall_fmap. intros k r _. cbn.
  unfold dict_tuple_free, json_loads_dict. apply map_Forall_fmap.
  intros k' j _. apply json_loads_tuple_free.
Qed.

(** The article-info cache after a call: unchanged, or with one record
    of four scalar fields added. *)
Lemma retrieve_article_info_info_cache u cached s :
  cached_articles_info (exec (retrieve_article_info E u cached) s)
  = cached_articles_info s ∨
  ∃ text code p,
    cached_articles_info (exec (retrieve_article_info E u cached) s)
    = <[url_key u :=
          <["plain_text" := PStr p]>
          (<["success" := PBool true]>
           (<["status_code" := PInt code]> (<["text" := PStr text]> ∅)))]>
      (cached_articles_info s).
Proof.
  unfold exec.
  destruct (if cached then cached_articles_info s !! url_key u else None)
    as [r|] eqn:Hl.
  - destruct cached; [|done]. left.
    destruct (r !! "plain_text") as [p|] eqn:Hp.
    + by rewrite (retrieve_article_info_hit E u s r Hl) by eauto.
    + by rewrite (retrieve_article_info_hit_no_plain_text E u s r Hl Hp).
  - assert (misses u cached s) as Hm by (destruct cached; [by right|by left]).
    destruct (requests_get E (net_log s) u) as [text code|msg] eqn:Hg.
    + destruct (decide (200 ≤ code < 300)%Z) as [Hc|Hc].
      * destruct (newspaper_fulltext E text) as [p|] eqn:Hx.
        -- rewrite (retrieve_article_info_extracted E u cached s text code p)
             by done.
           destruct cached; [|by left]. right.
           exists text, code, (article_cleanup E p). cbn.
           unfold store_info. by destruct (use_storage_for_cache _).
        -- left. by rewrite (retrieve_article_info_extraction_fails E u cached s text code).
      * left. by rewrite (retrieve_article_info_status E u cached s text code).
    + left. by rewrite (retrieve_article_info_transport E u cached s msg).
Qed.

Lemma info_cache_tuple_free_step c s :
  map_Forall (λ _ r, dict_tuple_free r) (cached_articles_info s) →
  map_Forall (λ _ r, dict_tuple_free r) (cached_articles_info (run_call E c s)).
Proof.
  intros Hi.
  assert (∀ u cached,
            map_Forall (λ _ r, dict_tuple_free r)
              (cached_articles_info (exec (retrieve_article_info E u cached) s)))
    as Hinfo.
  { intros u cached.
    destruct (retrieve_article_info_info_cache u cached s)
      as [->|(text & code & p & ->)]; [done|].
    apply map_Forall_insert_2; [|done].
    unfold dict_tuple_free. repeat (apply map_Forall_insert_2; [done|]).
    apply map_Forall_empty. }
  destruct c as [b|srcs|srcs cached|u|u cached|u| |]; cbn.
  - unfold Fetcher_init, readCacheFromStorage. unfold_monad. cbn.
    destruct b; cbn; [|apply map_Forall_empty].
    destruct (simple_fetch_json s), (articles_info_json s); cbn;
      try apply json_loads_info_tuple_free; apply map_Forall_empty.
  - unfold exec. by rewrite fetch_spec.
  - destruct (simple_fetch_exec E srcs cached s) as [->|[->|(k & v & Hv & ->)]];
      [done|done|].
    unfold store_simple. by destruct (use_storage_for_cache _).
  - done.
  - apply Hinfo.
  - rewrite retrieve_article_contents_exec. apply Hinfo.
  - done.
  - unfold readCacheFromStorage. unfold_monad. cbn.
    destruct (simple_fetch_json s), (articles_info_json s); cbn;
      try apply json_loads_info_tuple_free; done.
Qed.

Lemma reachable_info_cache_tuple_free s :
  reachable E s →
  map_Forall (λ _ r, dict_tuple_free r) (cached_articles_info s).
Proof.
  induction 1 as [b|s c _ IH]; [apply map_Forall_empty|].
  by apply info_cache_tuple_free_step.
Qed.

(** The article-info cache survives the round trip through its file
    unchanged. *)
Lemma article_info_round_trip s :
  reachable E s →
  cached_articles_info (exec (Fetcher_init true) (exec saveCacheToStorage s))
  = cached_articles_info s.
Proof.
  intros Hr. destruct (save_then_new_instance s) as [_ ->].
  rewrite <- (map_fmap_id (cached_articles_info s)) at 2. apply map_fmap_ext.
  intros k r Hk. unfold listify_dict.
  rewrite <- (map_fmap_id r) at 2. apply map_fmap_ext.
  intros k' x Hx. apply listify_tuple_free.
  exact (reachable_info_cache_tuple_free s Hr k r Hk k' x Hx).
Qed.

End Reachable.

(** ** Asking twice *)

(** C1, as the code has it.  A call with [cached] true whose key is in the
    in-memory cache returns the stored value and leaves the whole state,
    network log included, as it was: for [simple_fetch] in every state,
    for [retrieve_article_info] in every state of a process that starts
    without cache files.  The same request issued twice is answered from
    the cache the second time only when the first result was stored, that
    is, when the first call returned a non-empty list or a successful
    record: then the second call returns the identical value without any
    further network call, and for a key that was not cached before the two
    calls together make one fetch (one GET of the URL; one parse of each
    source). *)
Theorem cache_hit_returns_stored_value E :
  (∀ srcs s k v,
     simple_fetch_key E srcs = Return k →
     cached_simple_fetch s !! k = Some v →
     simple_fetch E srcs true s = (Return v, s)) ∧
  (∀ u s r,
     reachable E s →
     cached_articles_info s !! url_key u = Some r →
     retrieve_article_info E u true s = (Return r, s)) ∧
  (∀ srcs s v s1,
     simple_fetch E srcs true s = (Return v, s1) →
     v ≠ [] →
     simple_fetch E srcs true s1 = (Return v, s1) ∧
     (∀ k, simple_fetch_key E srcs = Return k →
           cached_simple_fetch s !! k = None →
           net_log s1 = net_log s ++ parse_calls (sources srcs))) ∧
  (∀ u s r s1,
     retrieve_article_info E u true s = (Return r, s1) →
     r !! "success" = Some (PBool true) →
     retrieve_article_info E u true s1 = (Return r, s1) ∧
     (cached_articles_info s !! url_key u = None →
      net_log s1 = net_log s ++ [GetCall u])).
Proof.
  split; [apply simple_fetch_hit|].
  split; [apply cache_hit_reachable|].
  split.
  - intros srcs s v s1 H Hv.
    destruct (simple_fetch_cached_after E srcs s v s1 H Hv) as (k & Hk & Hl).
    split; [by apply simple_fetch_hit with k|].
    intros k' Hk' Hn.
    apply simple_fetch_returns in H as (k'' & Hk'' & H).
    assert (k'' = k') as -> by congruence.
    destruct H as [(_ & Hl' & _)|(_ & data & _ & _ & ->)]; [congruence|].
    cbn. rewrite bool_decide_eq_true_2 by done.
    by rewrite store_simple_net_log.
  - intros u s r s1 H Hs.
    destruct (retrieve_article_info_cached_after E u s r s1 H Hs) as (Hl & Hp & Hn).
    split; [by apply retrieve_article_info_hit|done].
Qed.

Lemma cache_hit_returns_stored_value_witness :
  let u := "https://example.com/ok" in
  let r : pydict :=
    <["plain_text" := PStr "Hello"]>
    (<["success" := PBool true]>
     (<["status_code" := PInt 200]> (<["text" := PStr "<html>Hello</html>"]> ∅))) in
  let s1 := run_call Demo.env (CallRetrieveArticleInfo u true) (boot true) in
  retrieve_article_info Demo.env u true (boot true) = (Return r, s1) ∧
  retrieve_article_info Demo.env u true s1 = (Return r, s1) ∧
  net_log s1 = [GetCall u].
Proof.
  intros u r s1.
  assert (retrieve_article_info Demo.env u true (boot true) = (Return r, s1)) as H
    by (vm_compute; reflexivity).
  split; [exact H|]. split.
  - apply (proj1 (proj2 (cache_hit_returns_stored_value Demo.env)) u s1 r).
    + apply reachable_call, reachable_boot.
    + vm_compute; reflexivity.
  - destruct (proj2 (proj2 (proj2 (cache_hit_returns_stored_value Demo.env)))
                u (boot true) r s1 H) as [_ H3]; [vm_compute; reflexivity|].
    apply H3. vm_compute; reflexivity.
Defined.

(** The claim C1 read for every request fails in a process that starts
    without cache files.  A page that answers 404 is not cached, so asking
    for it twice makes two GETs; feeds that deliver nothing leave an empty
    list, which is not cached either, so asking twice parses every source
    twice. *)
Lemma failed_request_twice_fetches_twice :
  let u := "https://example.com/missing" in
  let s1 := exec (retrieve_article_info Demo.env u true) (boot true) in
  let s2 := exec (retrieve_article_info Demo.env u true) s1 in
  let E0 := mkEnv (λ _ _, None)
                  (requests_get Demo.env) (newspaper_fulltext Demo.env)
                  (clean_html Demo.env) (re_sub Demo.env)
                  (py_repr Demo.env) (set_iter Demo.env) in
  let t1 := exec (simple_fetch E0 SrcsNone true) (boot true) in
  let t2 := exec (simple_fetch E0 SrcsNone true) t1 in
  (result (retrieve_article_info Demo.env u true) (boot true)
   = result (retrieve_article_info Demo.env u true) s1 ∧
   net_log s2 = [GetCall u; GetCall u]) ∧
  (result (simple_fetch E0 SrcsNone true) (boot true) = Return [] ∧
   result (simple_fetch E0 SrcsNone true) t1 = Return [] ∧
   net_log t2 = parse_calls feeds ++ parse_calls feeds) ∧
  ¬ (∀ E u s,
       reachable E s →
       cached_articles_info s !! url_key u = None →
       net_log (exec (retrieve_article_info E u true)
                     (exec (retrieve_article_info E u true) s))
       = net_log s ++ [GetCall u]).
Proof.
  intros u s1 s2 E0 t1 t2.
  split; [by vm_compute|]. split; [by vm_compute|].
  intros H.
  specialize (H Demo.env u (boot true) (reachable_boot Demo.env true) eq_refl).
  vm_compute in H. discriminate H.
Qed.

(** * Further properties *)

(** ** [get_url_domain] on every string *)

Lemma split_no_sep sep w : has_char sep w = false → split sep w = [w].
Proof.
  induction w as [|c w IH]; simpl; [done|].
  intros H. apply orb_false_iff in H as [Hc Hw]. by rewrite Hc, (IH Hw).
Qed.

Lemma split_inv sep u w ws :
  split sep u = w :: ws →
  has_char sep w = false ∧
  (ws = [] → u = w) ∧
  (ws ≠ [] → ∃ rest, u = w +:+ String sep rest ∧ split sep rest = ws).
Proof.
  revert w ws. induction u as [|c u IH]; intros w ws; simpl.
  - intros [= <- <-]. split; [done|]. split; [done|]. by intros [].
  - destruct (Ascii.eqb c sep) eqn:Hc.
    + apply Ascii.eqb_eq in Hc as ->. intros [= <- <-].
      split; [done|]. split.
      * intros Hs. by destruct u; simpl in Hs; repeat case_match.
      * intros _. by exists u.
    + destruct (split sep u) as [|w0 ws0] eqn:Hs.
      * intros [= <- <-]. clear IH. exfalso.
        by destruct u; simpl in Hs; repeat case_match.
      * intros [= <- <-]. destruct (IH w0 ws0 eq_refl) as (Hw & H1 & H2).
        split; [simpl; by rewrite Hc, Hw|]. split.
        -- intros Hn. by rewrite (H1 Hn).
        -- intros Hn. destruct (H2 Hn) as (rest & -> & Hr). by exists rest.
Qed.

(** X1: [get_url_domain] never raises, whatever the string, and for every
    URL written [scheme://rest] it returns [None]: the first component of
    the split keeps the colon and so is neither [http] nor [https]. *)
Theorem get_url_domain_rejects_every_absolute_url :
  (∀ u, ∃ r, get_url_domain u = Return r) ∧
  (∀ scheme rest,
     has_char "/" scheme = false →
     get_url_domain (scheme +:+ "://" +:+ rest) = Return None).
Proof.
  split; [apply get_url_domain_returns|apply get_url_domain_absolute].
Qed.

Lemma get_url_domain_rejects_every_absolute_url_witness :
  get_url_domain ("http" +:+ "://" +:+ "feeds.bbci.co.uk/news/rss.xml") = Return None.
Proof.
  apply (proj2 get_url_domain_rejects_every_absolute_url
           "http" "feeds.bbci.co.uk/news/rss.xml").
  reflexivity.
Defined.

(** X2: [get_url_domain] returns a host exactly for the strings that begin
    with [http//] or [https//], without the colon: the host is the text up
    to the next slash or to the end of the string. *)
Theorem get_url_domain_returns_host_iff u d :
  get_url_domain u = Return (Some d) ↔
  has_char "/" d = false ∧
  ∃ c0, (c0 = "http" ∨ c0 = "https") ∧
        (u = c0 +:+ "//" +:+ d ∨ ∃ rest, u = c0 +:+ "//" +:+ d +:+ "/" +:+ rest).
Proof.
  split.
  - unfold get_url_domain, index. unfold_monad.
    destruct (split "/" u) as [|c0 [|c1 [|c2 tl]]] eqn:Hs; cbn; try done.
    + destruct (String.eqb c1 ""); [|done].
      by destruct (String.eqb c0 "http" || String.eqb c0 "https").
    + destruct (String.eqb_spec c1 "") as [->|]; [|done].
      destruct (String.eqb c0 "http" || String.eqb c0 "https") eqn:Hc0; [|done].
      intros [= ->].
      destruct (split_inv _ _ _ _ Hs) as (_ & _ & H2).
      destruct H2 as (r1 & -> & Hs1); [done|].
      destruct (split_inv _ _ _ _ Hs1) as (_ & _ & H3).
      destruct H3 as (r2 & -> & Hs2); [done|].
      destruct (split_inv _ _ _ _ Hs2) as (Hd & H4 & H5).
      split; [done|]. exists c0. split.
      { apply orb_true_iff in Hc0 as [H|H]; apply String.eqb_eq in H; auto. }
      destruct tl as [|t tl].
      * left. by rewrite (H4 eq_refl).
      * right. destruct H5 as (r3 & -> & _); [done|]. by exists r3.
  - intros (Hd & c0 & Hc0 & Hu).
    assert (has_char "/" c0 = false) as Hc by (by destruct Hc0 as [-> | ->]).
    assert (String.eqb c0 "http" || String.eqb c0 "https" = true) as Hb
      by (by destruct Hc0 as [-> | ->]).
    assert (∃ tl, split "/" u = c0 :: "" :: d :: tl) as [tl Hs].
    { destruct Hu as [->|[rest ->]].
      - exists [].
        change (c0 +:+ "//" +:+ d) with (c0 +:+ String "/" ("" +:+ String "/" d)).
        rewrite (split_app_sep "/" c0), (split_app_sep "/" "") by done.
        by rewrite split_no_sep.
      - exists (split "/" rest).
        change (c0 +:+ "//" +:+ d +:+ "/" +:+ rest)
          with (c0 +:+ String "/" ("" +:+ String "/" (d +:+ String "/" rest))).
        rewrite (split_app_sep "/" c0), (split_app_sep "/" "") by done.
        by rewrite (split_app_sep "/" d). }
    unfold get_url_domain, index. unfold_monad. rewrite Hs. cbn. by rewrite Hb.
Qed.

Lemma get_url_domain_returns_host_iff_witness :
  get_url_domain "https//example.com/a/b" = Return (Some "example.com").
Proof.
  apply (proj2 (get_url_domain_returns_host_iff
                  "https//example.com/a/b" "example.com")).
  split; [reflexivity|]. exists "https". split; [by right|].
  right. by exists "a/b".
Defined.

(** ** [fetch]: effects, ties and failures *)

(** X3: whatever the sources and whether it returns or raises, [fetch]
    leaves both caches and both cache files untouched and issues exactly
    one [feedparser.parse] per source, in the order of the list, without
    stopping at a source whose parse raises. *)
Theorem fetch_only_parses E srcs s :
  same_store s (exec (fetch E srcs) s) ∧
  net_log (exec (fetch E srcs) s) = net_log s ++ parse_calls (sources srcs) ∧
  length (net_log (exec (fetch E srcs) s))
  = (length (net_log s) + length (sources srcs))%nat.
Proof.
  unfold exec. rewrite fetch_spec. cbn.
  split; [apply same_store_log_calls|]. split; [done|].
  unfold parse_calls. by rewrite length_app, length_map.
Qed.

Lemma sort_insert_published_at t x l :
  List.filter (published_at t) (sort_insert x l)
  = List.filter (published_at t) (x :: l).
Proof.
  induction l as [|y l IH]; [done|].
  simpl sort_insert.
  destruct (key_ltb (published_parsed x) (published_parsed y)) eqn:Hxy; [|done].
  simpl. rewrite IH. simpl.
  destruct (published_at t x) eqn:Hx; [|done].
  destruct (published_at t y) eqn:Hy; [|done].
  exfalso. unfold published_at in Hx, Hy. unfold key_ltb in Hxy.
  destruct (published_parsed x) as [| |tx]; try done.
  destruct (published_parsed y) as [| |ty]; try done.
  apply bool_decide_eq_true in Hx, Hy. subst.
  by rewrite tuple_ltb_irrefl in Hxy.
Qed.

Lemma sort_reverse_published_at t l :
  List.filter (published_at t) (sort_reverse l) = List.filter (published_at t) l.
Proof.
  induction l as [|x l IH]; [done|].
  simpl sort_reverse. rewrite sort_insert_published_at. simpl. by rewrite IH.
Qed.

(** X4: the sort of [fetch] is stable: in the list [fetch] returns, the
    entries that share a publication time stand in the order in which the
    sources delivered them. *)
Theorem fetch_keeps_ties_in_source_order E srcs s res t :
  result (fetch E srcs) s = Return res →
  List.filter (published_at t) res
  = List.filter (published_at t) (parsed_entries E (net_log s) (sources srcs)).
Proof.
  unfold result. rewrite fetch_spec. cbn. unfold list_sort.
  destruct (existsb lacks_attribute _); [done|].
  destruct (_ && _); [done|].
  intros [= <-]. apply sort_reverse_published_at.
Qed.

Lemma fetch_keeps_ties_in_source_order_witness :
  List.filter (published_at [2020; 5; 17; 10; 0; 0; 6; 138; 0])
              [Demo.e2; Demo.e3; Demo.e1]
  = List.filter (published_at [2020; 5; 17; 10; 0; 0; 6; 138; 0])
                (parsed_entries Demo.env (net_log (boot true)) (sources SrcsNone)).
Proof.
  apply (fetch_keeps_ties_in_source_order Demo.env SrcsNone (boot true)).
  vm_compute. reflexivity.
Defined.

(** X5: a [simple_fetch] that raises stores nothing: both caches and both
    files are as before.  In particular, on a call that goes through
    [fetch], an exception of [fetch] (an entry without publication time)
    comes out of [simple_fetch] unchanged. *)
Theorem failing_simple_fetch_stores_nothing E srcs cached s :
  (∀ e s1, simple_fetch E srcs cached s = (Raise e, s1) → same_store s s1) ∧
  (∀ k e,
     simple_fetch_key E srcs = Return k →
     simple_misses k cached s →
     result (fetch E srcs) s = Raise e →
     result (simple_fetch E srcs cached) s = Raise e).
Proof.
  split.
  - intros e s1 H. unfold simple_fetch in H. unfold_monad.
    destruct (simple_fetch_key E srcs) as [k|];
      [|simplify_eq; apply same_store_refl].
    destruct (if cached then cached_simple_fetch s !! k else None); [done|].
    rewrite fetch_spec in H.
    destruct (list_sort _) as [data|];
      [|simplify_eq; apply same_store_log_calls].
    destruct (map_outcome (simplify E) data) as [final|];
      [|simplify_eq; apply same_store_log_calls].
    destruct (cached && bool_decide (final ≠ [])); [|done].
    cbn in H. by destruct (use_storage_for_cache s).
  - intros k e Hk Hm Hf. unfold result in *. rewrite fetch_spec in Hf. cbn in Hf.
    unfold simple_fetch. unfold_monad.
    by rewrite Hk, (simple_misses_lookup _ _ _ Hm), fetch_spec, Hf.
Qed.

Lemma failing_simple_fetch_stores_nothing_witness :
  let E := mkEnv (λ _ _, Some [mkEntry (Some [Some "https://a/1"]) (Some "A")
                                       NoPublished None])
                 (requests_get Demo.env) (newspaper_fulltext Demo.env)
                 (clean_html Demo.env) (re_sub Demo.env)
                 (py_repr Demo.env) (set_iter Demo.env) in
  result (simple_fetch E (SrcsList [Demo.bbc]) true) (boot true)
  = Raise (AttributeError "published_parsed") ∧
  same_store (boot true) (exec (simple_fetch E (SrcsList [Demo.bbc]) true) (boot true)).
Proof.
  intros E.
  destruct (failing_simple_fetch_stores_nothing E (SrcsList [Demo.bbc]) true (boot true))
    as [H1 H2].
  assert (result (simple_fetch E (SrcsList [Demo.bbc]) true) (boot true)
          = Raise (AttributeError "published_parsed")) as Hr.
  { eapply H2; [reflexivity|right; reflexivity|vm_compute; reflexivity]. }
  split; [exact Hr|].
  unfold result, exec in *.
  destruct (simple_fetch E (SrcsList [Demo.bbc]) true (boot true)) as [o s1] eqn:Hs.
  cbn in Hr. subst o. exact (H1 _ _ eq_refl).
Defined.

Lemma simplify_raises_cases E x :
  has_link_and_title x = false →
  ∃ e, simplify E x = Raise e ∧
       (links x = None → e = AttributeError "links") ∧
       (links x = Some [] → e = IndexError) ∧
       (∀ r, links x = Some (None :: r) → e = AttributeError "href") ∧
       (is_Some (first_href x) → e = AttributeError "title").
Proof.
  unfold simplify, index, getattr, has_link_and_title, first_href. unfold_monad.
  destruct (links x) as [[|[href|] rest]|]; cbn.
  - intros _. eexists. split; [done|]. repeat split; try done; by intros [? ?].
  - destruct (title x) as [t|]; cbn; [done|]. intros _.
    eexists. split; [done|]. repeat split; done.
  - intros _. eexists. split; [done|]. repeat split; try done; by intros [? ?].
  - intros _. eexists. split; [done|]. repeat split; try done; by intros [? ?].
Qed.

Lemma map_simplify_first_failure E good x rest e :
  Forall (λ y, lacks_attribute y = false) good →
  Forall (λ y, has_link_and_title y = true) good →
  simplify E x = Raise e →
  map_outcome (simplify E) (good ++ x :: rest) = Raise e.
Proof.
  intros Ha Hg Hx. induction good as [|y good IH]; cbn; unfold_monad.
  - by rewrite Hx.
  - apply Forall_cons in Ha as [Hay Ha]. apply Forall_cons in Hg as [Hgy Hg].
    destruct (simplify_returns E y Hgy Hay) as [d ->].
    by rewrite (IH Ha Hg).
Qed.

(** X6: when the first entry of [fetch]'s result that lacks a title or a
    first link with its [href] is [x], a call of [simple_fetch] that goes
    through [fetch] raises, and stores nothing.  The exception is
    [AttributeError] for a missing [links], [IndexError] for an empty list
    of links, [AttributeError] for a first link without [href], and
    [AttributeError] for a missing [title]. *)
Theorem simple_fetch_entry_without_link_or_title E srcs cached s k good x rest :
  simple_fetch_key E srcs = Return k →
  simple_misses k cached s →
  result (fetch E srcs) s = Return (good ++ x :: rest) →
  Forall (λ y, has_link_and_title y = true) good →
  has_link_and_title x = false →
  ∃ e, result (simple_fetch E srcs cached) s = Raise e ∧
       same_store s (exec (simple_fetch E srcs cached) s) ∧
       (links x = None → e = AttributeError "links") ∧
       (links x = Some [] → e = IndexError) ∧
       (∀ r, links x = Some (None :: r) → e = AttributeError "href") ∧
       (is_Some (first_href x) → e = AttributeError "title").
Proof.
  intros Hk Hm Hf Hg Hx. unfold result, exec in *. rewrite fetch_spec in Hf. cbn in Hf.
  destruct (list_sort_returns _ _ Hf) as [_ Ha].
  apply Forall_app in Ha as [Ha _].
  destruct (simplify_raises_cases E x Hx) as (e & He & Hcases).
  pose proof (map_simplify_first_failure E good x rest e Ha Hg He) as Hmap.
  exists e. unfold simple_fetch. unfold_monad.
  rewrite Hk, (simple_misses_lookup _ _ _ Hm), fetch_spec, Hf, Hmap. cbn.
  split; [done|]. split; [apply same_store_log_calls|done].
Qed.

Lemma simple_fetch_entry_without_link_or_title_witness :
  let x := mkEntry (Some [Some "https://a/1"]) None (Published [2020; 1; 1]) None in
  let E := mkEnv (λ _ _, Some [x])
                 (requests_get Demo.env) (newspaper_fulltext Demo.env)
                 (clean_html Demo.env) (re_sub Demo.env)
                 (py_repr Demo.env) (set_iter Demo.env) in
  result (simple_fetch E (SrcsList [Demo.bbc]) true) (boot true)
  = Raise (AttributeError "title").
Proof.
  intros x E.
  destruct (simple_fetch_entry_without_link_or_title E (SrcsList [Demo.bbc]) true
              (boot true) (url_key (str_set E [url Demo.bbc])) [] x [])
    as (e & He & _ & _ & _ & _ & Ht).
  - reflexivity.
  - right. reflexivity.
  - vm_compute. reflexivity.
  - constructor.
  - reflexivity.
  - rewrite He. f_equal. apply Ht. by eexists.
Defined.

(** ** Calls without the cache, network footprint, keys *)

(** X7: with [cached] false neither method reads or writes a cache: the
    caches and the files are left as they were, and the outcome is the
    same whatever the caches hold. *)
Theorem uncached_calls_ignore_the_caches E :
  (∀ srcs s, same_store s (exec (simple_fetch E srcs false) s)) ∧
  (∀ u s, same_store s (exec (retrieve_article_info E u false) s)) ∧
  (∀ srcs s s',
     net_log s = net_log s' →
     result (simple_fetch E srcs false) s = result (simple_fetch E srcs false) s') ∧
  (∀ u s s',
     net_log s = net_log s' →
     result (retrieve_article_info E u false) s
     = result (retrieve_article_info E u false) s').
Proof.
  assert (∀ srcs s,
            simple_fetch E srcs false s
            = (match simple_fetch_key E srcs with
               | Return _ =>
                   data ← list_sort (parsed_entries E (net_log s) (sources srcs));
                   map_outcome (simplify E) data
               | Raise e => Raise e
               end,
               match simple_fetch_key E srcs with
               | Return _ => log_calls (parse_calls (sources srcs)) s
               | Raise _ => s
               end)) as Hsf.
  { intros srcs s. unfold simple_fetch. unfold_monad.
    destruct (simple_fetch_key E srcs) as [k|]; [|done].
    rewrite fetch_spec. destruct (list_sort _) as [data|]; [|done].
    by destruct (map_outcome (simplify E) data). }
  assert (∀ u s, ∃ r,
            retrieve_article_info E u false s = (Return r, log_call (GetCall u) s) ∧
            ∀ s', net_log s = net_log s' →
                  result (retrieve_article_info E u false) s' = Return r) as Hri.
  { intros u s.
    assert (∀ s0, misses u false s0) as Hm by (by left).
    destruct (requests_get E (net_log s) u) as [text code|msg] eqn:Hg.
    - destruct (decide (200 ≤ code < 300)%Z) as [Hc|Hc].
      + destruct (newspaper_fulltext E text) as [p|] eqn:Hx.
        * eexists. split;
            [exact (retrieve_article_info_extracted E u false s text code p
                      (Hm s) Hg Hc Hx)|].
          intros s' Hl. rewrite Hl in Hg. unfold result.
          by rewrite (retrieve_article_info_extracted E u false s' text code p).
        * eexists. split; [by apply retrieve_article_info_extraction_fails|].
          intros s' Hl. rewrite Hl in Hg. unfold result.
          by rewrite (retrieve_article_info_extraction_fails E u false s' text code).
      + eexists. split; [by apply retrieve_article_info_status|].
        intros s' Hl. rewrite Hl in Hg. unfold result.
        by rewrite (retrieve_article_info_status E u false s' text code).
    - eexists. split; [by apply retrieve_article_info_transport|].
      intros s' Hl. rewrite Hl in Hg. unfold result.
      by rewrite (retrieve_article_info_transport E u false s' msg). }
  split.
  { intros srcs s. unfold exec. rewrite Hsf. cbn.
    destruct (simple_fetch_key E srcs);
      [apply same_store_log_calls|apply same_store_refl]. }
  split.
  { intros u s. destruct (Hri u s) as (r & Hr & _). unfold exec. rewrite Hr.
    apply (same_store_log_calls [_]). }
  split.
  { intros srcs s s' Hl. unfold result. rewrite !Hsf. cbn. by rewrite Hl. }
  intros u s s' Hl. destruct (Hri u s) as (r & Hr & Hr').
  rewrite (Hr' s' Hl). unfold result. by rewrite Hr.
Qed.

Lemma uncached_calls_ignore_the_caches_witness :
  result (simple_fetch Demo.env SrcsNone false) Demo.with_summary
  = result (simple_fetch Demo.env SrcsNone false) (boot true).
Proof.
  apply (proj1 (proj2 (proj2 (uncached_calls_ignore_the_caches Demo.env)))).
  reflexivity.
Defined.



Lemma append_inj_suffix (u u' : string) c :
  u +:+ String c "" = u' +:+ String c "" → u = u'.
Proof.
  revert u'. induction u as [|x u IH]; intros [|y u']; simpl; try done.
  - intros [= <- H]. by destruct u'.
  - intros [= -> H]. by destruct u.
  - intros [= -> H]. by rewrite (IH _ H).
Qed.

Lemma url_key_inj u u' : url_key u = url_key u' → u = u'.
Proof.
  unfold url_key. intros H. apply (append_inj_suffix u u' ">"%char).
  by simplify_eq/=.
Qed.

(** X9: the two caches do not interfere.  Different URLs have different
    cache keys; a call of [retrieve_article_info] leaves the simple-fetch
    cache and the cached record of every other URL as they were, and a call
    of [simple_fetch] leaves the article-info cache as it was. *)
Theorem caching_one_url_leaves_the_others E :
  (∀ u u', url_key u = url_key u' → u = u') ∧
  (∀ u cached s,
     cached_simple_fetch (exec (retrieve_article_info E u cached) s)
     = cached_simple_fetch s) ∧
  (∀ u u' cached s,
     u' ≠ u →
     cached_articles_info (exec (retrieve_article_info E u cached) s) !! url_key u'
     = cached_articles_info s !! url_key u') ∧
  (∀ srcs cached s,
     cached_articles_info (exec (simple_fetch E srcs cached) s)
     = cached_articles_info s).
Proof.
  split; [apply url_key_inj|]. split.
  { intros u cached s.
    destruct (retrieve_article_info_exec E u cached s) as [->|[->|(r & _ & ->)]];
      [done|done|].
    unfold store_info. by destruct (use_storage_for_cache _). }
  split.
  { intros u u' cached s Hne.
    destruct (retrieve_article_info_info_cache E u cached s)
      as [->|(text & code & p & ->)]; [done|].
    apply lookup_insert_ne. intros Hk. by apply url_key_inj in Hk. }
  intros srcs cached s.
  destruct (simple_fetch_exec E srcs cached s) as [->|[->|(k & v & _ & ->)]];
    [done|done|].
  unfold store_simple. by destruct (use_storage_for_cache _).
Qed.

Lemma caching_one_url_leaves_the_others_witness :
  let s := exec (retrieve_article_info Demo.env "https://example.com/ok" true)
                (boot true) in
  cached_articles_info
    (exec (retrieve_article_info Demo.env "https://example.com/missing" true) s)
  !! url_key "https://example.com/ok"
  = cached_articles_info s !! url_key "https://example.com/ok".
Proof.
  intros s.
  apply (proj1 (proj2 (proj2 (caching_one_url_leaves_the_others Demo.env)))).
  discriminate.
Defined.

(** ** Keys of [simple_fetch] and its argument *)

(** X10: a non-empty list of sources never has the key of the default
    sources, not even when it is the default list itself: with only the
    default result in the cache, a cache-enabled call with an explicit list
    goes to the network, one parse per source. *)
Theorem explicit_sources_never_share_the_default_entry E f l :
  simple_fetch_key E (SrcsList (f :: l)) ≠ simple_fetch_key E SrcsNone ∧
  (∀ s v,
     cached_simple_fetch s = {[ "URL<None>" := v ]} →
     net_log (exec (simple_fetch E (SrcsList (f :: l)) true) s)
     = net_log s ++ parse_calls (f :: l)).
Proof.
  assert (url_key (str_set E (map url (f :: l))) ≠ "URL<None>") as Hne.
  { unfold url_key, str_set. simpl. discriminate. }
  split; [intros [= H]; by apply Hne|].
  intros s v Hc. unfold exec, simple_fetch. unfold_monad.
  remember (url_key (str_set E (map url (f :: l)))) as k eqn:Hk.
  assert (simple_fetch_key E (SrcsList (f :: l)) = Return k) as ->
    by (by subst k).
  rewrite Hc, lookup_singleton_ne, fetch_spec by done.
  destruct (list_sort _) as [data|]; [|done].
  destruct (map_outcome (simplify E) data) as [final|]; [|done].
  destruct (bool_decide (final ≠ [])); [|done].
  cbn. by destruct (use_storage_for_cache s).
Qed.

Lemma explicit_sources_never_share_the_default_entry_witness :
  net_log (exec (simple_fetch Demo.env (SrcsList feeds) true) Demo.with_summary)
  = parse_calls feeds.
Proof.
  apply (proj2 (explicit_sources_never_share_the_default_entry Demo.env
                  Demo.cna [Demo.bbc; Demo.st]) Demo.with_summary [Demo.summary1]).
  reflexivity.
Defined.

(** X11: [fetch] accepts a single [Feed] in place of a list and treats it
    as the list of that one feed, but [simple_fetch], which builds its key
    by iterating over the argument, raises [TypeError] on a single [Feed]
    before any network call and without touching the state. *)
Theorem single_feed_fetches_but_does_not_simple_fetch E f cached s :
  fetch E (SrcsOne f) s = fetch E (SrcsList [f]) s ∧
  net_log (exec (fetch E (SrcsOne f)) s) = net_log s ++ [ParseCall (url f)] ∧
  simple_fetch E (SrcsOne f) cached s = (Raise TypeError, s).
Proof.
  split; [done|]. split; [|done].
  unfold exec. by rewrite fetch_spec.
Qed.

(** ** [retrieve_article_info] on a 2xx response *)

(** X12: when the call goes to the network, the status code is in
    [200,300) and the text extraction succeeds, the record has exactly the
    keys [text], [status_code], [success] and [plain_text], with [success]
    [True] and the cleaned text in [plain_text].  With [cached] true the
    record is stored under the key of the URL, and with storage enabled
    both files are rewritten from the dictionaries in memory; with [cached]
    false nothing is stored. *)
Theorem successful_download_is_stored E u cached s text code p :
  misses u cached s →
  requests_get E (net_log s) u = Response text code →
  (200 ≤ code < 300)%Z →
  newspaper_fulltext E text = Some p →
  ∃ r s1,
    retrieve_article_info E u cached s = (Return r, s1) ∧
    dom r = {[ "text"; "status_code"; "success"; "plain_text" ]} ∧
    r !! "text" = Some (PStr text) ∧
    r !! "status_code" = Some (PInt code) ∧
    r !! "success" = Some (PBool true) ∧
    r !! "plain_text" = Some (PStr (article_cleanup E p)) ∧
    (cached = true →
     cached_articles_info s1 = <[url_key u := r]> (cached_articles_info s) ∧
     (use_storage_for_cache s = true →
      articles_info_json s1 = Some (json_dumps_info (cached_articles_info s1)) ∧
      simple_fetch_json s1 = Some (json_dumps_simple (cached_simple_fetch s1))) ∧
     (use_storage_for_cache s = false →
      articles_info_json s1 = articles_info_json s ∧
      simple_fetch_json s1 = simple_fetch_json s)) ∧
    (cached = false → same_store s s1).
Proof.
  intros Hm Hg Hc Hx. eexists _, _.
  split; [exact (retrieve_article_info_extracted E u cached s text code p Hm Hg Hc Hx)|].
  split; [rewrite !dom_insert_L, dom_empty_L; set_solver|].
  do 4 (split; [by simplify_map_eq|]).
  split.
  - intros ->. unfold store_info. cbn.
    destruct (use_storage_for_cache s); cbn; (split; [done|]); by split.
  - intros ->. apply (same_store_log_calls [_]).
Qed.

Lemma successful_download_is_stored_witness :
  ∃ r s1,
    retrieve_article_info Demo.env "https://example.com/ok" true (boot true)
    = (Return r, s1) ∧
    r !! "plain_text" = Some (PStr "Hello") ∧
    cached_articles_info s1 = {[ url_key "https://example.com/ok" := r ]} ∧
    articles_info_json s1 = Some (json_dumps_info (cached_articles_info s1)).
Proof.
  destruct (successful_download_is_stored Demo.env "https://example.com/ok" true
              (boot true) "<html>Hello</html>" 200 "Hello")
    as (r & s1 & H & _ & _ & _ & _ & Hp & Hc & _).
  - right. reflexivity.
  - reflexivity.
  - lia.
  - reflexivity.
  - exists r, s1. destruct (Hc eq_refl) as (Hc1 & Hc2 & _).
    split; [exact H|]. split; [exact Hp|]. split; [exact Hc1|].
    exact (proj1 (Hc2 eq_refl)).
Defined.

(** X13: when the status code is in [200,300) but the text extraction
    raises, the record keeps [text] and [status_code], has [success]
    [False] and no [plain_text], and nothing is stored, whatever
    [cached]. *)
Theorem failed_extraction_is_not_stored E u cached s text code :
  misses u cached s →
  requests_get E (net_log s) u = Response text code →
  (200 ≤ code < 300)%Z →
  newspaper_fulltext E text = None →
  ∃ r s1,
    retrieve_article_info E u cached s = (Return r, s1) ∧
    dom r = {[ "text"; "status_code"; "success" ]} ∧
    r !! "text" = Some (PStr text) ∧
    r !! "status_code" = Some (PInt code) ∧
    r !! "success" = Some (PBool false) ∧
    r !! "plain_text" = None ∧
    same_store s s1 ∧
    net_log s1 = net_log s ++ [GetCall u].
Proof.
  intros Hm Hg Hc Hx. eexists _, _.
  split; [by apply retrieve_article_info_extraction_fails|].
  split; [rewrite !dom_insert_L, dom_empty_L; set_solver|].
  do 4 (split; [by simplify_map_eq|]).
  split; [apply (same_store_log_calls [_])|done].
Qed.

Lemma failed_extraction_is_not_stored_witness :
  let E := mkEnv (feedparser_parse Demo.env) (requests_get Demo.env)
                 (λ _, None) (clean_html Demo.env) (re_sub Demo.env)
                 (py_repr Demo.env) (set_iter Demo.env) in
  ∃ r s1,
    retrieve_article_info E "https://example.com/ok" true (boot true)
    = (Return r, s1) ∧
    r !! "success" = Some (PBool false) ∧
    r !! "plain_text" = None ∧
    same_store (boot true) s1.
Proof.
  intros E.
  destruct (failed_extraction_is_not_stored E "https://example.com/ok" true
              (boot true) "<html>Hello</html>" 200)
    as (r & s1 & H & _ & _ & _ & Hs & Hp & Hst & _).
  - right. reflexivity.
  - reflexivity.
  - lia.
  - reflexivity.
  - exists r, s1. split; [exact H|]. split; [exact Hs|]. split; [exact Hp|exact Hst].
Defined.

(** X14: when the call goes to the network and a response arrives,
    whatever its status code, [retrieve_article_contents] does not raise:
    it returns the cleaned text when the status is in [200,300) and the
    extraction succeeds, and otherwise the string [Error] followed by the
    status code, also for a status in [200,300) whose extraction failed. *)
Theorem retrieve_article_contents_on_a_response E u s text code :
  misses u true s →
  requests_get E (net_log s) u = Response text code →
  result (retrieve_article_contents E u) s
  = Return (PStr (match newspaper_fulltext E text with
                  | Some p =>
                      if decide (200 ≤ code < 300)%Z then article_cleanup E p
                      else "Error " +:+ pretty code
                  | None => "Error " +:+ pretty code
                  end)).
Proof.
  intros Hm Hg. destruct (decide (200 ≤ code < 300)%Z) as [Hc|Hc].
  - destruct (newspaper_fulltext E text) as [p|] eqn:Hx.
    + by apply retrieve_article_contents_extracted with text code.
    + unfold result.
      by rewrite (retrieve_article_contents_extraction_fails E u s text code).
  - unfold result. rewrite (retrieve_article_contents_status E u s text code) by done.
    by destruct (newspaper_fulltext E text).
Qed.

Lemma retrieve_article_contents_on_a_response_witness :
  result (retrieve_article_contents Demo.env "https://example.com/missing") (boot true)
  = Return (PStr "Error 404").
Proof.
  apply (retrieve_article_contents_on_a_response Demo.env
           "https://example.com/missing" (boot true) "Not Found" 404).
  - right. reflexivity.
  - reflexivity.
Defined.

(** ** The files mirror the caches *)

Lemma json_dumps_loads_value j : json_dumps_value (json_loads_value j) = j.
Proof.
  induction j as [ | | | |l IH] using json_nested_ind; cbn; try done.
  f_equal. rewrite map_map. rewrite <- (map_id l) at 2. apply map_ext_Forall, IH.
Qed.

Lemma json_dumps_loads_dict (d : jsondict) :
  json_dumps_dict (json_loads_dict d) = d.
Proof.
  unfold json_loads_dict, json_dumps_dict. rewrite <- map_fmap_compose.
  rewrite <- (map_fmap_id d) at 2. apply map_fmap_ext.
  intros k v _. apply json_dumps_loads_value.
Qed.

Lemma json_dumps_loads_info doc : json_dumps_info (json_loads_info doc) = doc.
Proof.
  unfold json_loads_info, json_dumps_info. rewrite <- map_fmap_compose.
  rewrite <- (map_fmap_id doc) at 2. apply map_fmap_ext.
  intros k v _. apply json_dumps_loads_dict.
Qed.

Lemma json_dumps_loads_simple doc : json_dumps_simple (json_loads_simple doc) = doc.
Proof.
  unfold json_loads_simple, json_dumps_simple. rewrite <- map_fmap_compose.
  rewrite <- (map_fmap_id doc) at 2. apply map_fmap_ext.
  intros k v _. cbn. rewrite map_map. rewrite <- (map_id v) at 2.
  apply map_ext. intros d. apply json_dumps_loads_dict.
Qed.

Lemma files_in_sync_save_files s : files_in_sync (save_files s).
Proof. by split. Qed.

Lemma files_in_sync_same_store s s' :
  same_store s s' → files_in_sync s → files_in_sync s'.
Proof.
  intros (_ & H1 & H2 & H3 & H4). unfold files_in_sync.
  by rewrite H1, H2, H3, H4.
Qed.

Lemma files_in_sync_read s :
  files_in_sync s → files_in_sync (exec readCacheFromStorage s).
Proof.
  intros [Hs Hi]. unfold readCacheFromStorage. unfold_monad. cbn.
  unfold files_in_sync.
  destruct (simple_fetch_json s) as [ds|] eqn:Hds;
    destruct (articles_info_json s) as [di|] eqn:Hdi; cbn;
    rewrite ?Hds, ?Hdi, ?json_dumps_loads_simple, ?json_dumps_loads_info; done.
Qed.

Lemma files_in_sync_init s : files_in_sync (exec (Fetcher_init true) s).
Proof.
  unfold Fetcher_init, readCacheFromStorage. unfold_monad. cbn.
  unfold files_in_sync.
  destruct (simple_fetch_json s) as [ds|] eqn:Hds;
    destruct (articles_info_json s) as [di|] eqn:Hdi; cbn;
    rewrite ?Hds, ?Hdi, ?json_dumps_loads_simple, ?json_dumps_loads_info; done.
Qed.

Lemma run_call_use_storage E c s :
  c ≠ CallInit false →
  use_storage_for_cache s = true →
  use_storage_for_cache (run_call E c s) = true.
Proof.
  intros Hc Hu. destruct c as [b|srcs|srcs cached|u|u cached|u| |]; cbn.
  - destruct b; [|done]. unfold Fetcher_init, readCacheFromStorage. unfold_monad. cbn.
    by destruct (simple_fetch_json s), (articles_info_json s).
  - unfold exec. by rewrite fetch_spec.
  - destruct (simple_fetch_exec E srcs cached s) as [->|[->|(k & v & _ & ->)]];
      [done|done|].
    unfold store_simple. cbn. by rewrite Hu.
  - done.
  - destruct (retrieve_article_info_exec E u cached s) as [->|[->|(r & _ & ->)]];
      [done|done|].
    unfold store_info. cbn. by rewrite Hu.
  - rewrite retrieve_article_contents_exec.
    destruct (retrieve_article_info_exec E u true s) as [->|[->|(r & _ & ->)]];
      [done|done|].
    unfold store_info. cbn. by rewrite Hu.
  - done.
  - unfold readCacheFromStorage. unfold_monad. cbn.
    by destruct (simple_fetch_json s), (articles_info_json s).
Qed.

(** X15: with storage enabled the files mirror the caches.  Right after
    an instance is constructed with storage enabled, and after every
    method call on it, each cache file that exists is the JSON image of the
    dictionary in memory, and a dictionary without a file is empty:
    whatever is cached has also been written. *)
Theorem files_mirror_the_caches E :
  (∀ s, use_storage_for_cache (exec (Fetcher_init true) s) = true ∧
        files_in_sync (exec (Fetcher_init true) s)) ∧
  (∀ c s,
     c ≠ CallInit false →
     use_storage_for_cache s = true →
     files_in_sync s →
     use_storage_for_cache (run_call E c s) = true ∧
     files_in_sync (run_call E c s)).
Proof.
  split.
  { intros s. split; [|apply files_in_sync_init].
    unfold Fetcher_init, readCacheFromStorage. unfold_monad. cbn.
    by destruct (simple_fetch_json s), (articles_info_json s). }
  intros c s Hc Hu Hs. split; [by apply run_call_use_storage|].
  destruct c as [b|srcs|srcs cached|u|u cached|u| |]; cbn.
  - destruct b; [apply files_in_sync_init|done].
  - unfold exec. rewrite fetch_spec.
    eapply files_in_sync_same_store; [apply same_store_log_calls|done].
  - destruct (simple_fetch_exec E srcs cached s) as [->|[->|(k & v & _ & ->)]];
      [done|eapply files_in_sync_same_store; [apply same_store_log_calls|done]|].
    unfold store_simple. cbn. rewrite Hu. apply files_in_sync_save_files.
  - done.
  - destruct (retrieve_article_info_exec E u cached s) as [->|[->|(r & _ & ->)]];
      [done|eapply files_in_sync_same_store; [apply (same_store_log_calls [_])|done]|].
    unfold store_info. cbn. rewrite Hu. apply files_in_sync_save_files.
  - rewrite retrieve_article_contents_exec.
    destruct (retrieve_article_info_exec E u true s) as [->|[->|(r & _ & ->)]];
      [done|eapply files_in_sync_same_store; [apply (same_store_log_calls [_])|done]|].
    unfold store_info. cbn. rewrite Hu. apply files_in_sync_save_files.
  - apply files_in_sync_save_files.
  - by apply files_in_sync_read.
Qed.

Lemma files_mirror_the_caches_witness :
  let s := run_call Demo.env (CallSimpleFetch SrcsNone true) (boot true) in
  use_storage_for_cache s = true ∧ files_in_sync s ∧
  is_Some (cached_simple_fetch s !! "URL<None>").
Proof.
  intros s.
  destruct (proj2 (files_mirror_the_caches Demo.env)
              (CallSimpleFetch SrcsNone true) (boot true)) as [H1 H2].
  - discriminate.
  - reflexivity.
  - split; reflexivity.
  - split; [exact H1|]. split; [exact H2|]. vm_compute. eexists. reflexivity.
Defined.

(** ** Saving and starting again *)

Lemma listify_idemp v : listify (listify v) = listify v.
Proof. apply listify_tuple_free, listify_is_tuple_free. Qed.

Lemma listify_dict_idemp d : listify_dict (listify_dict d) = listify_dict d.
Proof.
  unfold listify_dict. rewrite <- map_fmap_compose. apply map_fmap_ext.
  intros k v _. apply listify_idemp.
Qed.

Lemma listify_dict_tuple_free d : dict_tuple_free d → listify_dict d = d.
Proof.
  intros Hd. unfold listify_dict. rewrite <- (map_fmap_id d) at 2.
  apply map_fmap_ext. intros k x Hx. apply listify_tuple_free, (Hd k x Hx).
Qed.

(** X16: saving the caches and constructing a new instance with storage
    enabled keeps the keys of both caches; an entry whose values contain
    no tuple comes back unchanged, and the others come back with their
    tuples turned into lists.  Doing it a second time changes nothing
    more. *)
Theorem save_and_reload s :
  let reload := λ s, exec (Fetcher_init true) (exec saveCacheToStorage s) in
  dom (cached_simple_fetch (reload s)) = dom (cached_simple_fetch s) ∧
  dom (cached_articles_info (reload s)) = dom (cached_articles_info s) ∧
  (∀ k v, cached_simple_fetch s !! k = Some v →
          cached_simple_fetch (reload s) !! k = Some (map listify_dict v) ∧
          (Forall dict_tuple_free v → cached_simple_fetch (reload s) !! k = Some v)) ∧
  (∀ k r, cached_articles_info s !! k = Some r →
          cached_articles_info (reload s) !! k = Some (listify_dict r) ∧
          (dict_tuple_free r → cached_articles_info (reload s) !! k = Some r)) ∧
  cached_simple_fetch (reload (reload s)) = cached_simple_fetch (reload s) ∧
  cached_articles_info (reload (reload s)) = cached_articles_info (reload s).
Proof.
  intros reload.
  assert (∀ s0, cached_simple_fetch (reload s0)
                = map listify_dict <$> cached_simple_fetch s0) as Hs
    by (intros s0; apply (save_then_new_instance s0)).
  assert (∀ s0, cached_articles_info (reload s0)
                = listify_dict <$> cached_articles_info s0) as Hi
    by (intros s0; apply (save_then_new_instance s0)).
  split; [by rewrite Hs, dom_fmap_L|]. split; [by rewrite Hi, dom_fmap_L|].
  split.
  { intros k v Hk. rewrite Hs, lookup_fmap, Hk. cbn. split; [done|].
    intros Hv. f_equal. rewrite <- (map_id v) at 2. apply map_ext_Forall.
    eapply Forall_impl; [exact Hv|]. apply listify_dict_tuple_free. }
  split.
  { intros k r Hk. rewrite Hi, lookup_fmap, Hk. cbn. split; [done|].
    intros Hr. by rewrite listify_dict_tuple_free. }
  split.
  - rewrite (Hs (reload s)), Hs, <- map_fmap_compose. apply map_fmap_ext.
    intros k v _. cbn. rewrite map_map. apply map_ext. intros d.
    apply listify_dict_idemp.
  - rewrite (Hi (reload s)), Hi, <- map_fmap_compose. apply map_fmap_ext.
    intros k r _. apply listify_dict_idemp.
Qed.

Lemma save_and_reload_witness :
  let s := exec (retrieve_article_info Demo.env "https://example.com/ok" true)
                (boot true) in
  let r : pydict :=
    <["plain_text" := PStr "Hello"]>
    (<["success" := PBool true]>
     (<["status_code" := PInt 200]> (<["text" := PStr "<html>Hello</html>"]> ∅))) in
  cached_articles_info s !! url_key "https://example.com/ok" = Some r ∧
  cached_articles_info (exec (Fetcher_init true) (exec saveCacheToStorage s))
  !! url_key "https://example.com/ok" = Some r.
Proof.
  intros s r.
  assert (cached_articles_info s !! url_key "https://example.com/ok" = Some r)
    as Hl by (vm_compute; reflexivity).
  split; [exact Hl|].
  destruct (save_and_reload s) as (_ & _ & _ & H & _).
  apply (proj2 (H _ _ Hl)).
  unfold dict_tuple_free, r. repeat (apply map_Forall_insert_2; [reflexivity|]).
  apply map_Forall_empty.
Defined.

(** X17: in a process that starts without cache files, the article-info
    cache survives a save followed by the construction of a new instance
    unchanged: the records the methods store hold only strings, integers
    and booleans. *)
Theorem article_info_cache_survives_restart E s :
  reachable E s →
  cached_articles_info (exec (Fetcher_init true) (exec saveCacheToStorage s))
  = cached_articles_info s.
Proof.
  intros Hr. destruct (save_then_new_instance s) as [_ ->].
  rewrite <- (map_fmap_id (cached_articles_info s)) at 2. apply map_fmap_ext.
  intros k r Hk. apply listify_dict_tuple_free.
  exact (reachable_info_cache_tuple_free E s Hr k r Hk).
Qed.

Lemma article_info_cache_survives_restart_witness :
  let s := run_call Demo.env
             (CallRetrieveArticleInfo "https://example.com/ok" true) (boot true) in
  cached_articles_info (exec (Fetcher_init true) (exec saveCacheToStorage s))
  = cached_articles_info s ∧
  is_Some (cached_articles_info s !! url_key "https://example.com/ok").
Proof.
  intros s. split.
  - apply (article_info_cache_survives_restart Demo.env).
    apply reachable_call, reachable_boot.
  - vm_compute. eexists. reflexivity.
Defined.

(** X18: in a process that starts without cache files
    [retrieve_article_info] never raises: every call returns a record
    whose [success] is a boolean.  [retrieve_article_contents] raises in
    one case only, [KeyError] on [status_code], and only when the URL is
    not cached and its GET raised a [RequestException]. *)
Theorem info_methods_in_a_fresh_process E s u :
  reachable E s →
  (∀ cached, ∃ r s1 b,
     retrieve_article_info E u cached s = (Return r, s1) ∧
     r !! "success" = Some (PBool b)) ∧
  (∀ e, result (retrieve_article_contents E u) s = Raise e →
        e = KeyError "status_code" ∧
        cached_articles_info s !! url_key u = None ∧
        ∃ msg, requests_get E (net_log s) u = RequestException msg).
Proof.
  intros Hr. destruct (reachable_inv E s Hr) as [[_ Hi] _]. split.
  - intros cached.
    destruct (if cached then cached_articles_info s !! url_key u else None)
      as [r|] eqn:Hl.
    + destruct cached; [|done]. destruct (Hi _ _ Hl) as [Hs Hp].
      exists r, s, true. split; [by apply retrieve_article_info_hit|done].
    + assert (misses u cached s) as Hm by (destruct cached; [by right|by left]).
      destruct (retrieve_article_info_miss_cases E u cached s Hm)
        as (r & s1 & H & [[Hs _]|(Hs & _)]); eauto 6.
  - intros e He.
    destruct (cached_articles_info s !! url_key u) as [r|] eqn:Hl.
    + exfalso. destruct (Hi _ _ Hl) as [Hs [p Hp]].
      unfold result, retrieve_article_contents in He. unfold_monad.
      rewrite (retrieve_article_info_hit E u s r Hl) in He by eauto.
      unfold getitem in He. by rewrite Hs, Hp in He.
    + assert (misses u true s) as Hm by by right.
      destruct (requests_get E (net_log s) u) as [text code|msg] eqn:Hg.
      * exfalso. unfold result in He.
        destruct (decide (200 ≤ code < 300)%Z) as [Hc|Hc].
        -- destruct (newspaper_fulltext E text) as [p|] eqn:Hx.
           ++ pose proof (retrieve_article_contents_extracted E u s text code p
                            Hm Hg Hc Hx) as H. unfold result in H. congruence.
           ++ by rewrite (retrieve_article_contents_extraction_fails E u s text code)
                in He.
        -- by rewrite (retrieve_article_contents_status E u s text code) in He.
      * unfold result in He.
        rewrite (retrieve_article_contents_transport E u s msg) in He by done.
        cbn in He. simplify_eq. eauto.
Qed.

Lemma info_methods_in_a_fresh_process_witness :
  ∃ r s1 b,
    retrieve_article_info Demo.env "https://example.com/down" true (boot true)
    = (Return r, s1) ∧
    r !! "success" = Some (PBool b).
Proof.
  exact (proj1 (info_methods_in_a_fresh_process Demo.env (boot true)
                  "https://example.com/down" (reachable_boot Demo.env true)) true).
Defined.

(** ** Cached summaries keep their shape *)

Section SummariesInv.
Variable E : Env.

Lemma dom_json_dumps_dict d : dom (json_dumps_dict d) = dom d.
Proof. unfold json_dumps_dict. apply dom_fmap_L. Qed.

Lemma dom_json_loads_dict d : dom (json_loads_dict d) = dom d.
Proof. unfold json_loads_dict. apply dom_fmap_L. Qed.

Lemma summaries_inv_same_store s s' :
  same_store s s' → summaries_inv s → summaries_inv s'.
Proof.
  intros (_ & H1 & _ & H3 & _). unfold summaries_inv. by rewrite H1, H3.
Qed.

Lemma summaries_inv_save_files s : summaries_inv s → summaries_inv (save_files s).
Proof.
  intros [Hm _]. split; [done|]. cbn. intros doc [= <-].
  unfold json_dumps_simple. apply map_Forall_fmap.
  intros k v Hv. cbn. apply Forall_map.
  eapply Forall_impl; [exact (Hm k v Hv)|].
  intros d Hd. cbn. by rewrite dom_json_dumps_dict.
Qed.

Lemma summaries_inv_store_info k r s :
  summaries_inv s → summaries_inv (store_info k r s).
Proof.
  intros Hs. unfold store_info.
  destruct (use_storage_for_cache s); [apply summaries_inv_save_files|]; done.
Qed.

Lemma summaries_inv_store_simple k v s :
  summaries_inv s →
  Forall (λ d : pydict, dom d = summary_keys) v →
  summaries_inv (store_simple k v s).
Proof.
  intros [Hm Hf] Hv.
  assert (summaries_inv
            (set_cached_simple_fetch (<[k := v]> (cached_simple_fetch s)) s)) as H.
  { split; [|done]. cbn. by apply map_Forall_insert_2. }
  unfold store_simple.
  destruct (use_storage_for_cache s); [by apply summaries_inv_save_files|done].
Qed.

Lemma summaries_inv_read s :
  summaries_inv s → summaries_inv (exec readCacheFromStorage s).
Proof.
  intros [Hm Hf]. unfold readCacheFromStorage. unfold_monad. cbn.
  assert (∀ doc, simple_fetch_json s = Some doc →
                 map_Forall (λ _ (v : list pydict),
                               Forall (λ d, dom d = summary_keys) v)
                            (json_loads_simple doc)) as Hl.
  { intros doc Hd. unfold json_loads_simple. apply map_Forall_fmap.
    intros k v Hv. cbn. apply Forall_map.
    eapply Forall_impl; [exact (Hf doc Hd k v Hv)|].
    intros d Hdom. cbn. by rewrite dom_json_loads_dict. }
  destruct (simple_fetch_json s) as [ds|] eqn:Hds;
    destruct (articles_info_json s) as [di|] eqn:Hdi; cbn;
    (split; cbn; [|by rewrite Hds]); auto.
Qed.

Lemma items_have_summary_keys data final :
  Forall2 (item_of E) data final →
  Forall (λ d : pydict, dom d = summary_keys) final.
Proof.
  induction 1 as [|x d data final Hi _ IH]; constructor; [apply Hi|done].
Qed.

Lemma simple_fetch_raises_same_store srcs cached s e s1 :
  simple_fetch E srcs cached s = (Raise e, s1) → same_store s s1.
Proof.
  intros H. unfold simple_fetch in H. unfold_monad.
  destruct (simple_fetch_key E srcs) as [k|];
    [|simplify_eq; apply same_store_refl].
  destruct (if cached then cached_simple_fetch s !! k else None); [done|].
  rewrite fetch_spec in H.
  destruct (list_sort _) as [data|];
    [|simplify_eq; apply same_store_log_calls].
  destruct (map_outcome (simplify E) data) as [final|];
    [|simplify_eq; apply same_store_log_calls].
  destruct (cached && bool_decide (final ≠ [])); [|done].
  cbn in H. by destruct (use_storage_for_cache s).
Qed.

Lemma summaries_inv_simple_fetch srcs cached s :
  summaries_inv s → summaries_inv (exec (simple_fetch E srcs cached) s).
Proof.
  intros Hs. unfold exec.
  destruct (simple_fetch E srcs cached s) as [[v|e] s1] eqn:H; cbn.
  - apply simple_fetch_returns in H as (k & Hk & H).
    destruct H as [(_ & _ & ->)|(_ & data & _ & Hmap & ->)]; [done|].
    assert (summaries_inv (log_calls (parse_calls (sources srcs)) s)) as Hs1
      by (eapply summaries_inv_same_store; [apply same_store_log_calls|done]).
    destruct (cached && bool_decide (v ≠ [])); [|done].
    apply summaries_inv_store_simple; [done|].
    by apply items_have_summary_keys with data, map_simplify_items.
  - eapply summaries_inv_same_store; [|done].
    by eapply simple_fetch_raises_same_store.
Qed.

Lemma summaries_inv_retrieve u cached s :
  summaries_inv s → summaries_inv (exec (retrieve_article_info E u cached) s).
Proof.
  intros Hs.
  destruct (retrieve_article_info_exec E u cached s) as [->|[->|(r & _ & ->)]];
    [done| |].
  - eapply summaries_inv_same_store; [apply (same_store_log_calls [_])|done].
  - apply summaries_inv_store_info.
    eapply summaries_inv_same_store; [apply (same_store_log_calls [_])|done].
Qed.

Lemma summaries_inv_run_call c s : summaries_inv s → summaries_inv (run_call E c s).
Proof.
  intros Hs. destruct c as [b|srcs|srcs cached|u|u cached|u| |]; cbn.
  - assert (summaries_inv (mkState b ∅ ∅ (simple_fetch_json s)
                             (articles_info_json s) (net_log s))) as H0.
    { split; [apply map_Forall_empty|apply Hs]. }
    unfold Fetcher_init. unfold_monad. cbn.
    destruct b; [|done]. by apply summaries_inv_read in H0.
  - unfold exec. rewrite fetch_spec.
    eapply summaries_inv_same_store; [apply same_store_log_calls|done].
  - by apply summaries_inv_simple_fetch.
  - done.
  - by apply summaries_inv_retrieve.
  - rewrite retrieve_article_contents_exec. by apply summaries_inv_retrieve.
  - by apply summaries_inv_save_files.
  - by apply summaries_inv_read.
Qed.

Lemma reachable_summaries_inv s : reachable E s → summaries_inv s.
Proof.
  induction 1 as [b|s c _ IH]; [|by apply summaries_inv_run_call].
  split; [apply map_Forall_empty|done].
Qed.

End SummariesInv.

(** X19: in a process that starts without cache files, every list
    [simple_fetch] returns, whether built from a fresh [fetch] or taken
    from the cache, also from a cache read back from its file, consists of
    dictionaries with exactly the keys [url], [title], [published_on] and
    [short_summary]. *)
Theorem simple_fetch_always_returns_summaries E s srcs cached v s1 :
  reachable E s →
  simple_fetch E srcs cached s = (Return v, s1) →
  Forall (λ d : pydict,
            dom d = {[ "url"; "title"; "published_on"; "short_summary" ]}) v.
Proof.
  intros Hr H. destruct (reachable_summaries_inv E s Hr) as [Hm _].
  apply simple_fetch_returns in H as (k & Hk & H).
  destruct H as [(_ & Hl & _)|(_ & data & _ & Hmap & _)].
  - exact (Hm k v Hl).
  - by apply items_have_summary_keys with E data, map_simplify_items.
Qed.

Lemma simple_fetch_always_returns_summaries_witness :
  let s := run_call Demo.env (CallInit true)
             (run_call Demo.env (CallSimpleFetch SrcsNone true) (boot true)) in
  ∃ v, simple_fetch Demo.env SrcsNone true s = (Return v, s) ∧
       length v = 3%nat ∧
       Forall (λ d : pydict,
                 dom d = {[ "url"; "title"; "published_on"; "short_summary" ]}) v.
Proof.
  intros s.
  assert (∃ v, simple_fetch Demo.env SrcsNone true s = (Return v, s) ∧
               length v = 3%nat) as (v & Hv & Hlen).
  { eexists. split; [vm_compute; reflexivity|reflexivity]. }
  exists v. split; [exact Hv|]. split; [exact Hlen|].
  apply (simple_fetch_always_returns_summaries Demo.env s SrcsNone true v s);
    [|exact Hv].
  apply reachable_call, reachable_call, reachable_boot.
Defined.

(** ** Construction *)

